(** * kafkakit-prometheus-metricsfetcher: the metrics pipeline of [main.go]

    A shallow embedding of the three stages of [main.go]:
    - the two mappers [getBrokerFreeSpace] and [getPartitionSizes], which
      turn the result of an instant query into Go maps;
    - [writeToZookeeper], the delete / getACL / create protocol run against
      a ZooKeeper connection, and [processData], which either prints the
      maps (dry run) or writes them;
    - the split of [--zk-addr] into host and chroot done by [main].

    Go maps with string keys are [gmap string _]; [float64] is Rocq's binary64
    [float]; the ZooKeeper connection is an interface ([zk.Conn]) over an
    arbitrary store state, with every call recorded in order. *)

From Stdlib Require Import ZArith Floats Ascii String List.
From stdpp Require Import gmap strings list fin_maps sorting pretty.

Open Scope string_scope.
Open Scope list_scope.
Open Scope Z_scope.

(** ** Values returned by a Prometheus instant query
    ([github.com/prometheus/common/model]). *)

(** [model.Sample]: a label set ([model.Metric], a
    [map[LabelName]LabelValue]), a [float64] value and a timestamp. *)
Record Sample := mkSample {
  Metric : gmap string string;
  Value : float;
  Timestamp : Z
}.

(** [model.SampleStream], the element of a [model.Matrix]. *)
Record SampleStream := mkSampleStream {
  StreamMetric : gmap string string;
  StreamValues : list (Z * float)
}.

(** [model.Value]: the four result shapes, named after their
    [model.ValueType] ([ValScalar], [ValVector], [ValMatrix], [ValString]). *)
Inductive model_Value :=
| ValScalar (v : float) (ts : Z)
| ValVector (samples : list Sample)
| ValMatrix (streams : list SampleStream)
| ValString (s : string) (ts : Z).

(** A Go [(T, error)] pair of which only one side is meaningful. *)
Inductive result (E A : Type) :=
| Err (e : E)
| Ok (a : A).
Arguments Err {E A} e.
Arguments Ok {E A} a.

(** What a function that may end the process does: it returns, or the
    process exits with [code] ([log.Fatalf] and [os.Exit(1)] both exit
    with status 1). *)
Inductive proc (A : Type) :=
| Return (a : A)
| Exit (code : Z).
Arguments Return {A} a.
Arguments Exit {A} code.

(** ** The two domain maps (main.go, lines 22-31) *)

Record brokerStorageFreeValue := mkBrokerStorageFreeValue { StorageFree : float }.
Abbreviation brokerStorageFree := (gmap string brokerStorageFreeValue).

Record partitionSizeValue := mkPartitionSizeValue { Size : float }.
Abbreviation partitionSize := (gmap string partitionSizeValue).
Abbreviation topicPartitionSize := (gmap string (gmap string partitionSizeValue)).

(** ** The mappers *)

(** [string(elem.Metric[name])]: indexing a Go map with a missing key gives
    the zero value, here the empty string. *)
Definition label (elem : Sample) (name : string) : string :=
  default "" (Metric elem !! name).

(** Body of the loop of [getBrokerFreeSpace] (lines 98-99). *)
Definition brokerStep (flBrokerIDLabel : string)
    (m : brokerStorageFree) (elem : Sample) : brokerStorageFree :=
  let bid := label elem flBrokerIDLabel in
  <[bid := {| StorageFree := Value elem |}]> m.

(** [getBrokerFreeSpace] (lines 86-104); [q] is what [promQuery] returned. *)
Definition getBrokerFreeSpace (flBrokerIDLabel : string)
    (q : result string model_Value) : proc brokerStorageFree :=
  match q with
  | Err _ => Exit 1
  | Ok (ValVector vectorVal) =>
      Return (foldl (brokerStep flBrokerIDLabel) ∅ vectorVal)
  | Ok _ => Return ∅
  end.

(** Body of the loop of [getPartitionSizes] (lines 119-128). *)
Definition partitionStep (m : topicPartitionSize) (elem : Sample)
    : topicPartitionSize :=
  let topic := label elem "topic" in
  let partition := label elem "partition" in
  let v := match m !! topic with
           | Some v => v
           | None => ∅
           end in
  let v := <[partition := {| Size := Value elem |}]> v in
  <[topic := v]> m.

(** [getPartitionSizes] (lines 106-133). *)
Definition getPartitionSizes (q : result string model_Value)
    : proc topicPartitionSize :=
  match q with
  | Err _ => Exit 1
  | Ok (ValVector vectorVal) => Return (foldl partitionStep ∅ vectorVal)
  | Ok _ => Return ∅
  end.

(** The (topic, partition) pair under which [getPartitionSizes] stores a
    sample (lines 119-120). *)
Definition pairOf (elem : Sample) : string * string :=
  (label elem "topic", label elem "partition").

(** Reading one cell of the two-level map: [m[topic][partition]]. *)
Definition lookup2 (m : topicPartitionSize) (topic partition : string)
    : option partitionSizeValue :=
  m !! topic ≫= λ v, v !! partition.

(** ** The ZooKeeper client ([github.com/samuel/go-zookeeper/zk])

    The client library is not part of the repository: the connection is an
    interface over an arbitrary store state [St], so that every result below
    holds for whatever the server answers. *)
Module zk.

(** The errors of the client that the code tells apart ([ErrNoNode],
    [ErrNodeExists]) and the others it can return. *)
Inductive error :=
| ErrConnectionClosed
| ErrUnknown
| ErrAPIError
| ErrNoNode
| ErrNoAuth
| ErrBadVersion
| ErrNoChildrenForEphemerals
| ErrNodeExists
| ErrNotEmpty
| ErrSessionExpired
| ErrInvalidACL
| ErrAuthFailed
| ErrClosing
| ErrNothing
| ErrSessionMoved
| ErrBadArguments.

#[global] Instance error_eq_dec : EqDecision error.
Proof. solve_decision. Defined.

(** [zk.ACL]: permission bits ([int32]), scheme and identity. *)
Record ACL := mkACL {
  Perms : Z;
  Scheme : string;
  ID : string
}.

#[global] Instance ACL_eq_dec : EqDecision ACL.
Proof. solve_decision. Defined.

Definition PermRead : Z := 1.
Definition PermWrite : Z := 2.
Definition PermCreate : Z := 4.
Definition PermDelete : Z := 8.
Definition PermAdmin : Z := 16.
(** [PermAll = 0x1f]. *)
Definition PermAll : Z := 31.

(** [zk.WorldACL(perms)]: the one-entry list [world:anyone:perms]. *)
Definition WorldACL (perms : Z) : list ACL :=
  [ {| Perms := perms; Scheme := "world"; ID := "anyone" |} ].

(** The four methods of [*zk.Conn] that [main.go] calls. An [error] result
    of [None] is Go's [nil]. [Create] also returns the created path, which
    the code discards; [GetACL] also returns a [*Stat], likewise discarded. *)
Class Conn (St : Type) := {
  Delete : string → Z → St → option error * St;
  GetACL : string → St → result error (list ACL) * St;
  Create : string → list Byte.byte → Z → list ACL → St → option error * St;
  Close : St → St
}.

#[global] Instance byte_eq_dec : EqDecision Byte.byte := Byte.byte_eq_dec.

(** One recorded call on the connection. *)
Inductive call :=
| CallDelete (path : string) (version : Z)
| CallGetACL (path : string)
| CallCreate (path : string) (data : list Byte.byte) (flags : Z) (acl : list ACL)
| CallClose.

#[global] Instance call_eq_dec : EqDecision call.
Proof. solve_decision. Defined.

End zk.

(** The errors [processData] and [writeToZookeeper] return, one constructor
    per [fmt.Errorf] format of the source (and one for [json.Marshal]). *)
Inductive error :=
| ErrMarshal (msg : string)
  (* json.Marshal failed *)
| ErrDeletePath (path : string) (err : zk.error)
  (* "unable to delete path %s. err: %v" *)
| ErrCreateNode (dir : string) (err : zk.error)
  (* "unable to create node %s. err: %v" *)
| ErrGetACL (dir : string) (err : zk.error)
  (* "unable to get node %s acl. err: %v" *)
| ErrWrongACL (dir : string) (acl : list zk.ACL)
  (* "zookeeper node %s has wrong ACL: %v" *)
| ErrCreatePath (path : string) (err : zk.error)
  (* "unable to create path %s. err: %v" *).

(** ** Functions of the Go standard library *)

(** [strings.IndexByte]: index of the first [c] in [s], or -1. *)
Fixpoint IndexByte (s : string) (c : ascii) : Z :=
  match s with
  | EmptyString => -1
  | String a s' =>
      if decide (a = c) then 0
      else let i := IndexByte s' c in
           if i <? 0 then -1 else i + 1
  end.

(** The slices [s[:n]] and [s[n:]] for [0 <= n <= len(s)]. *)
Fixpoint slice_to (n : nat) (s : string) : string :=
  match n, s with
  | S n', String a s' => String a (slice_to n' s')
  | _, _ => EmptyString
  end.

Fixpoint slice_from (n : nat) (s : string) : string :=
  match n, s with
  | S n', String _ s' => slice_from n' s'
  | _, _ => s
  end.

Definition MaxUint64 : Z := 2 ^ 64 - 1.
Definition MaxInt64 : Z := 2 ^ 63 - 1.
Definition MinInt64 : Z := - 2 ^ 63.

Inductive NumError := ErrSyntax | ErrRange.

(** The digit loop of [strconv.ParseUint] in base 10 on 64 bits: a
    character that is no digit is a syntax error, and the loop stops with
    a range error as soon as the value leaves [uint64]. *)
Fixpoint parseDigits (n : Z) (s : string) : result NumError Z :=
  match s with
  | EmptyString => Ok n
  | String c s' =>
      let d := Z.of_nat (nat_of_ascii c) - 48 in
      if (d <? 0) || (9 <? d) then Err ErrSyntax
      else if MaxUint64 <? n * 10 + d then Err ErrRange
      else parseDigits (n * 10 + d) s'
  end.

(** [strconv.Atoi] on a 64-bit platform: an optional sign and decimal
    digits; 0 on a syntax error, the nearest bound on overflow. *)
Definition Atoi (s : string) : Z * option NumError :=
  let '(neg, digits) :=
    match s with
    | String "-" r => (true, r)
    | String "+" r => (false, r)
    | _ => (false, s)
    end in
  match digits with
  | EmptyString => (0, Some ErrSyntax)
  | _ =>
      match parseDigits 0 digits with
      | Err ErrSyntax => (0, Some ErrSyntax)
      | Err ErrRange =>
          if neg then (MinInt64, Some ErrRange) else (MaxInt64, Some ErrRange)
      | Ok un =>
          if negb neg && (MaxInt64 <? un) then (MaxInt64, Some ErrRange)
          else if neg && (MaxInt64 + 1 <? un) then (MinInt64, Some ErrRange)
          else (if neg then - un else un, None)
      end
  end.

(** [utf8.RuneCountInString], by which [fmt] measures a string it pads.
    [utf8First c] is the entry of the table [first] for a leading byte
    [c >= 0x80]: the size of the encoding and the range accepted for its
    second byte, or [None] for a byte that starts no encoding. *)
Definition utf8First (c : Z) : option (nat * Z * Z) :=
  if (194 <=? c) && (c <=? 223) then Some (2%nat, 128, 191)
  else if c =? 224 then Some (3%nat, 160, 191)
  else if (225 <=? c) && (c <=? 236) then Some (3%nat, 128, 191)
  else if c =? 237 then Some (3%nat, 128, 159)
  else if (238 <=? c) && (c <=? 239) then Some (3%nat, 128, 191)
  else if c =? 240 then Some (4%nat, 144, 191)
  else if (241 <=? c) && (c <=? 243) then Some (4%nat, 128, 191)
  else if c =? 244 then Some (4%nat, 128, 143)
  else None.

(** The byte of [s] at index [i], or -1 past its end. *)
Definition byteAt (s : string) (i : nat) : Z :=
  match String.get i s with
  | Some a => Z.of_nat (nat_of_ascii a)
  | None => -1
  end.

(** How many bytes the loop of [RuneCountInString] steps over at a byte [c]
    followed by [r]: the size of a well-formed encoding, 1 otherwise. *)
Definition runeBytes (c : Z) (r : string) : nat :=
  if c <? 128 then 1%nat
  else
    match utf8First c with
    | None => 1%nat
    | Some (size, lo, hi) =>
        if (String.length r <? size - 1)%nat then 1%nat
        else if (byteAt r 0 <? lo) || (hi <? byteAt r 0) then 1%nat
        else if (size =? 2)%nat then 2%nat
        else if (byteAt r 1 <? 128) || (191 <? byteAt r 1) then 1%nat
        else if (size =? 3)%nat then 3%nat
        else if (byteAt r 2 <? 128) || (191 <? byteAt r 2) then 1%nat
        else 4%nat
    end.

(** The loop itself; [skip] counts the bytes still to step over. *)
Fixpoint runeCountFrom (skip : nat) (s : string) : nat :=
  match s with
  | EmptyString => O
  | String c r =>
      match skip with
      | S k => runeCountFrom k r
      | O => S (runeCountFrom (runeBytes (Z.of_nat (nat_of_ascii c)) r - 1) r)
      end
  end.

Definition RuneCountInString (s : string) : nat := runeCountFrom 0 s.

(** [fmt]'s [%-4s] and [%15s]: pad with spaces on the right, on the left,
    up to the width counted in runes. *)
Fixpoint spaces (n : nat) : string :=
  match n with
  | O => EmptyString
  | S n' => String " " (spaces n')
  end.

Definition pad_right (width : nat) (s : string) : string :=
  s +:+ spaces (width - RuneCountInString s).

Definition pad_left (width : nat) (s : string) : string :=
  spaces (width - RuneCountInString s) +:+ s.

(** What the Go runtime and the other libraries leave open or do outside
    the repository: the two [json.Marshal] calls, the conversion
    [uint64(float64)], [humanize.Bytes], the order in which [range] visits a
    map (unspecified, and free to differ from one loop to the next: the
    partitions' order is given per topic), and [sort.Slice] (not stable). *)
Class Externals := {
  json_Marshal_tps : topicPartitionSize → result string (list Byte.byte);
  json_Marshal_bsf : brokerStorageFree → result string (list Byte.byte);
  uint64_of_float64 : float → Z;
  humanize_Bytes : Z → string;
  range_topics : topicPartitionSize → list (string * partitionSize);
  range_partitions : string → partitionSize → list (string * partitionSizeValue);
  range_brokers : brokerStorageFree → list (string * brokerStorageFreeValue);
  sort_Slice : ∀ A : Type, (A → A → bool) → list A → list A
}.

(** What Go promises of them: a [range] visits every entry once, and
    [sort.Slice] returns its input reordered so that no element is less
    than one before it, for a [less] that is a strict weak order. *)
Class ExternalsLaws (E : Externals) : Prop := {
  range_topics_perm : ∀ m, range_topics m ≡ₚ map_to_list m;
  range_partitions_perm : ∀ topic m, range_partitions topic m ≡ₚ map_to_list m;
  range_brokers_perm : ∀ m, range_brokers m ≡ₚ map_to_list m;
  sort_Slice_perm : ∀ A (less : A → A → bool) l, sort_Slice A less l ≡ₚ l;
  sort_Slice_sorted : ∀ A (less : A → A → bool) l,
    (∀ a b, less a b = true → less b a = false) →
    (∀ a b c, less b a = false → less c b = false → less c a = false) →
    Sorted (λ a b, less b a = false) (sort_Slice A less l)
}.

(** ** The publisher *)

(** The element type [el] local to [processData] (lines 156-159). *)
Module el.
Record t := mk { Partition : Z; Size : Z }.
End el.

Section Publisher.
Context {St : Type} {conn : zk.Conn St} {E : Externals}.

(** The connection, the calls made on it so far (oldest first) and the
    messages logged so far. *)
Record world := mkWorld {
  zkConn : St;
  calls : list zk.call;
  logged : list string
}.

Definition doDelete (path : string) (version : Z) (w : world)
    : option zk.error * world :=
  let '(err, st) := zk.Delete path version (zkConn w) in
  (err, mkWorld st (calls w ++ [zk.CallDelete path version]) (logged w)).

Definition doGetACL (path : string) (w : world)
    : result zk.error (list zk.ACL) * world :=
  let '(r, st) := zk.GetACL path (zkConn w) in
  (r, mkWorld st (calls w ++ [zk.CallGetACL path]) (logged w)).

Definition doCreate (path : string) (data : list Byte.byte) (flags : Z)
    (acl : list zk.ACL) (w : world) : option zk.error * world :=
  let '(err, st) := zk.Create path data flags acl (zkConn w) in
  (err, mkWorld st (calls w ++ [zk.CallCreate path data flags acl]) (logged w)).

Definition doClose (w : world) : world :=
  mkWorld (zk.Close (zkConn w)) (calls w ++ [zk.CallClose]) (logged w).

Definition doLog (msg : string) (w : world) : world :=
  mkWorld (zkConn w) (calls w) (logged w ++ [msg]).

Definition root : string := "/topicmappr".

(** The directory node (lines 205-210). *)
Definition zkDir (zkChroot : string) : string :=
  if decide (zkChroot ≠ "") then zkChroot +:+ root else root.

(** The data node (line 212). *)
Definition zkPath (zkChroot path : string) : string :=
  zkDir zkChroot +:+ "/" +:+ path.

(** The loop of lines 235-240: is [wacl] one of [acl]? *)
Fixpoint waclExists (wacl : zk.ACL) (acl : list zk.ACL) : bool :=
  match acl with
  | [] => false
  | a :: rest => if decide (a = wacl) then true else waclExists wacl rest
  end.

(** [zk.WorldACL(zk.PermAll)[0]]. *)
Definition wacl : zk.ACL :=
  default (zk.mkACL 0 "" "") (head (zk.WorldACL zk.PermAll)).

(** The test [err != nil && err != benign]: the error that aborts, if any. *)
Definition fatalUnless (benign : zk.error) (err : option zk.error)
    : option zk.error :=
  match err with
  | Some e => if decide (e = benign) then None else Some e
  | None => None
  end.

(** Lines 220-244: get the directory's ACL; create the directory when it
    is missing, check its ACL when it is there. *)
Definition ensureDir (dir : string) (w : world) : option error * world :=
  let '(r, w) := doGetACL dir w in
  match r with
  | Err e =>
      if decide (e = zk.ErrNoNode) then
        (* Create the directory node if it is missing *)
        let '(err, w) := doCreate dir [] 0 (zk.WorldACL zk.PermAll) w in
        match fatalUnless zk.ErrNodeExists err with
        | Some e' => (Some (ErrCreateNode dir e'), w)
        | None => (None, w)
        end
      else (Some (ErrGetACL dir e), w)
  | Ok acl =>
      (* Ensure that we have WorldACL with PermAll *)
      if waclExists wacl acl then (None, w)
      else (Some (ErrWrongACL dir acl), w)
  end.

(** Lines 246-254: create the data node. *)
Definition createDataNode (path : string) (data : list Byte.byte) (w : world)
    : option error * world :=
  let w := doLog ("writing data to " +:+ path) w in
  let '(err, w) := doCreate path data 0 (zk.WorldACL zk.PermAll) w in
  match err with
  | Some e => (Some (ErrCreatePath path e), w)
  | None => (None, w)
  end.

(** [writeToZookeeper] (lines 200-255). *)
Definition writeToZookeeper (zkChroot path : string) (data : list Byte.byte)
    (w : world) : option error * world :=
  let dir := zkDir zkChroot in
  let path := dir +:+ "/" +:+ path in
  (* Remove the old node. *)
  let '(err, w) := doDelete path 0 w in
  match fatalUnless zk.ErrNoNode err with
  | Some e => (Some (ErrDeletePath path e), w)
  | None =>
      let '(err, w) := ensureDir dir w in
      match err with
      | Some e => (Some e, w)
      | None => createDataNode path data w
      end
  end.

(** The entries of one topic in the order they are printed (lines 161-174):
    one [el] per partition, then [sort.Slice] by [Partition]. *)
Definition dryRunEntries (topic : string) (m : partitionSize) : list el.t :=
  let entries :=
    (λ '(partition, obj),
       let p := (Atoi partition).1 in
       el.mk p (uint64_of_float64 (Size obj)))
    <$> range_partitions topic m in
  sort_Slice el.t (λ a b, el.Partition a <? el.Partition b) entries.

(** "partition %-4d size: %s" *)
Definition partitionLine (entry : el.t) : string :=
  "partition " +:+ pad_right 4 (pretty (el.Partition entry))
  +:+ " size: " +:+ humanize_Bytes (el.Size entry).

(** Lines 154-178: what is logged for one topic. *)
Definition dryRunTopic (kv : string * partitionSize) : list string :=
  ("topic: " +:+ kv.1) :: (partitionLine <$> dryRunEntries kv.1 kv.2).

(** "broker #%-4s %15s: %s" *)
Definition brokerLine (kv : string * brokerStorageFreeValue) : string :=
  "broker #" +:+ pad_right 4 kv.1 +:+ " " +:+ pad_left 15 "storage free"
  +:+ ": " +:+ humanize_Bytes (uint64_of_float64 (StorageFree kv.2)).

(** The dry-run branch (lines 149-185): the messages logged, in order. *)
Definition dryRun (brokerMetrics : brokerStorageFree)
    (partitionMapping : topicPartitionSize) : list string :=
  ["partition mapping"]
  ++ concat (dryRunTopic <$> range_topics partitionMapping)
  ++ ["fetched metrics"]
  ++ (brokerLine <$> range_brokers brokerMetrics).

(** The body of [processData] after the two [json.Marshal] calls
    (lines 148-197). *)
Definition processSwitch (flDryRun : bool) (zkChroot : string)
    (brokerMetrics : brokerStorageFree) (partitionMapping : topicPartitionSize)
    (topicPartitionSizeData brokerMetricsData : list Byte.byte)
    (w : world) : option error * world :=
  if flDryRun then
    (None, foldl (λ w msg, doLog msg w) w (dryRun brokerMetrics partitionMapping))
  else
    let '(err, w) := writeToZookeeper zkChroot "partitionmeta" topicPartitionSizeData w in
    match err with
    | Some e => (Some e, w)
    | None =>
        let '(err, w) := writeToZookeeper zkChroot "brokermetrics" brokerMetricsData w in
        match err with
        | Some e => (Some e, w)
        | None => (None, w)
        end
    end.

(** [processData] (lines 135-198); the deferred [zkConn.Close()] runs on
    every way out. *)
Definition processData (flDryRun : bool) (zkChroot : string)
    (brokerMetrics : brokerStorageFree) (partitionMapping : topicPartitionSize)
    (w : world) : option error * world :=
  let '(err, w) :=
    match json_Marshal_tps partitionMapping with
    | Err e => (Some (ErrMarshal e), w)
    | Ok topicPartitionSizeData =>
        match json_Marshal_bsf brokerMetrics with
        | Err e => (Some (ErrMarshal e), w)
        | Ok brokerMetricsData =>
            processSwitch flDryRun zkChroot brokerMetrics partitionMapping
              topicPartitionSizeData brokerMetricsData w
        end
    end in
  (err, doClose w).

End Publisher.

Arguments world St : clear implicits.
Arguments mkWorld {St} zkConn calls logged.
Arguments zkConn {St} w.
Arguments calls {St} w.
Arguments logged {St} w.

(** The open ACL: all permissions to anyone. *)
Definition openACL : zk.ACL := zk.mkACL zk.PermAll "world" "anyone".

(** ** The address split of [main] (lines 277-283)

    Returns [(zkAddr, zkChroot)]; [zkChroot] keeps its zero value, the empty
    string, when the address has no '/'. *)
Definition splitZkAddr (flZkAddr : string) : string * string :=
  let pos := IndexByte flZkAddr "/" in
  if 0 <=? pos then
    (slice_to (Z.to_nat pos) flZkAddr, slice_from (Z.to_nat pos) flZkAddr)
  else (flZkAddr, "").

(** The node a recorded call is about ([Close] is about none). *)
Definition callPath (c : zk.call) : option string :=
  match c with
  | zk.CallDelete path _ => Some path
  | zk.CallGetACL path => Some path
  | zk.CallCreate path _ _ _ => Some path
  | zk.CallClose => None
  end.

(** ** The orchestration: [promQuery] and [main]

    What [main] reaches outside the program besides the ZooKeeper
    connection: [api.NewClient] (nil error or an error), [v1api.Query]
    (a result or an error, and warnings; the answers may change from one
    query to the next, hence the state [P]), and [zk.Connect]. The query
    timeout and the evaluation time are not modelled. *)
Class Platform (P St : Type) := {
  api_NewClient : string → option string;
  v1api_Query : string → P → (result string model_Value * list string) * P;
  zk_Connect : list string → result string St
}.

(** The flags of lines 36-42 that the pipeline reads. *)
Record Flags := mkFlags {
  flPrometheusURL : string;
  flZkAddr : string;
  flPartitionSizeQuery : string;
  flBrokerStorageQuery : string;
  flBrokerIDLabel : string;
  flDryRun : bool
}.

(** Why the process exited with a non-zero status, one constructor per
    [log.Fatal], [log.Fatalf] and [os.Exit] of the source. *)
Inductive fatal :=
| NoPrometheusURL
  (* "Please provide prometheus-url" *)
| PrometheusClient (err : string)
  (* "Error creating Prometheus client: %v" *)
| NoZkAddr
  (* "please provide the zookeeper host with --zk-addr" *)
| ZkConnect (err : string)
  (* "Error creating zookeeper connection: %v" *)
| BrokerQuery
  (* "Error getting broker storage free space from Prometheus: %v" *)
| PartitionQuery
  (* "Error getting partition sizes from Prometheus: %v" *)
| ProcessData (e : error)
  (* "Failed to process data: %v" *).

(** [fmt.Sprint] of the warnings, a slice of strings: "[w1 w2]". *)
Definition warningLine (warnings : list string) : string :=
  "[" +:+ String.concat " " warnings +:+ "]".

Section Orchestration.
Context {P St : Type} {platform : Platform P St} {conn : zk.Conn St}
  {E : Externals}.

(** Prometheus, the queries issued so far (oldest first), and the
    connection with its calls and the log. *)
Record env := mkEnv {
  prom : P;
  queried : list string;
  zkw : world St
}.

(** [promQuery] (lines 68-84). *)
Definition promQuery (q : string) (s : env) : result string model_Value * env :=
  let '((r, warnings), p) := v1api_Query q (prom s) in
  let s := mkEnv p (queried s ++ [q]) (zkw s) in
  match r with
  | Err err => (Err err, s)
  | Ok result =>
      (Ok result,
       match warnings with
       | [] => s
       | _ => mkEnv (prom s) (queried s) (doLog (warningLine warnings) (zkw s))
       end)
  end.

(** How the process ends: an exit with a status, before or after the
    connection was made (deferred calls do not run on an exit), or the
    return of [main], which is status 0. *)
Inductive outcome :=
| Exited (code : Z) (why : fatal) (s : option env)
| Returned (s : env).

(** [main] (lines 257-300); [p0] is Prometheus as the run finds it. *)
Definition main (fl : Flags) (p0 : P) : outcome :=
  if decide (flPrometheusURL fl = "") then Exited 1 NoPrometheusURL None
  else
    match api_NewClient (flPrometheusURL fl) with
    | Some err => Exited 1 (PrometheusClient err) None
    | None =>
        if decide (flZkAddr fl = "") then Exited 1 NoZkAddr None
        else
          let '(zkAddr, zkChroot) := splitZkAddr (flZkAddr fl) in
          match zk_Connect [zkAddr] with
          | Err err => Exited 1 (ZkConnect err) None
          | Ok zkConn =>
              let s := mkEnv p0 [] (mkWorld zkConn [] []) in
              (* Get data *)
              let '(r, s) := promQuery (flBrokerStorageQuery fl) s in
              match getBrokerFreeSpace (flBrokerIDLabel fl) r with
              | Exit code => Exited code BrokerQuery (Some s)
              | Return brokerMetrics =>
                  let '(r, s) := promQuery (flPartitionSizeQuery fl) s in
                  match getPartitionSizes r with
                  | Exit code => Exited code PartitionQuery (Some s)
                  | Return partitionMapping =>
                      let '(err, w) :=
                        processData (flDryRun fl) zkChroot brokerMetrics
                          partitionMapping (zkw s) in
                      let s := mkEnv (prom s) (queried s) w in
                      match err with
                      | Some e => Exited 1 (ProcessData e) (Some s)
                      | None => Returned s
                      end
                  end
              end
          end
    end.

(** The exit status of the process. *)
Definition exitCode (o : outcome) : Z :=
  match o with
  | Exited code _ _ => code
  | Returned _ => 0
  end.

(** Where the run left Prometheus and the connection, when it got as far
    as connecting. *)
Definition finalEnv (o : outcome) : option env :=
  match o with
  | Exited _ _ s => s
  | Returned s => Some s
  end.

End Orchestration.

Arguments env P St : clear implicits.
Arguments outcome P St : clear implicits.
Arguments mkEnv {P St} prom queried zkw.
Arguments prom {P St} e.
Arguments queried {P St} e.
Arguments zkw {P St} e.

(** ** A reference store and reference externals

    An in-memory ZooKeeper for a client that has not authenticated, used to
    run the code on concrete stores: nodes keyed by their full path, each
    with data, ACL and data version; the root "/" always exists and is open. *)
Module memzk.

Record znode := mkZnode {
  data : list Byte.byte;
  acl : list zk.ACL;
  version : Z
}.
Abbreviation store := (gmap string znode).

(** Index of the last '/' of a path. *)
Fixpoint lastSlash (s : string) : option nat :=
  match s with
  | EmptyString => None
  | String a s' =>
      match lastSlash s' with
      | Some i => Some (S i)
      | None => if decide (a = "/"%char) then Some O else None
      end
  end.

(** The parent of a node: "/" for a node just below the root. *)
Definition parent (path : string) : string :=
  match lastSlash path with
  | Some (S n) => slice_to (S n) path
  | _ => "/"
  end.

Definition aclOf (st : store) (path : string) : option (list zk.ACL) :=
  if decide (path = "/") then Some (zk.WorldACL zk.PermAll)
  else acl <$> st !! path.

(** Does [acl] grant [perm] to a client with no credentials? Only
    world:anyone entries apply to it. *)
Definition permits (perm : Z) (acl : list zk.ACL) : bool :=
  existsb (λ a, bool_decide (zk.Scheme a = "world" ∧ zk.ID a = "anyone")
                && negb (Z.land (zk.Perms a) perm =? 0)) acl.

Definition hasChildren (st : store) (path : string) : bool :=
  existsb (λ kv, bool_decide (parent kv.1 = path)) (map_to_list st).

Definition Delete (path : string) (version : Z) (st : store)
    : option zk.error * store :=
  match st !! path with
  | None => (Some zk.ErrNoNode, st)
  | Some n =>
      if negb (permits zk.PermDelete (default [] (aclOf st (parent path))))
      then (Some zk.ErrNoAuth, st)
      else if negb (version =? -1) && negb (version =? memzk.version n)
      then (Some zk.ErrBadVersion, st)
      else if hasChildren st path then (Some zk.ErrNotEmpty, st)
      else (None, delete path st)
  end.

Definition GetACL (path : string) (st : store)
    : result zk.error (list zk.ACL) * store :=
  match aclOf st path with
  | Some a => (Ok a, st)
  | None => (Err zk.ErrNoNode, st)
  end.

Definition Create (path : string) (d : list Byte.byte) (flags : Z)
    (a : list zk.ACL) (st : store) : option zk.error * store :=
  match a with
  | [] => (Some zk.ErrInvalidACL, st)
  | _ =>
      match aclOf st (parent path) with
      | None => (Some zk.ErrNoNode, st)
      | Some pacl =>
          if negb (permits zk.PermCreate pacl) then (Some zk.ErrNoAuth, st)
          else if bool_decide (is_Some (aclOf st path))
          then (Some zk.ErrNodeExists, st)
          else (None, <[path := mkZnode d a 0]> st)
      end
  end.

#[global] Instance conn : zk.Conn store := {
  zk.Delete := Delete;
  zk.GetACL := GetACL;
  zk.Create := Create;
  zk.Close := λ st, st
}.

End memzk.

(** [uint64(f)] for a finite [f] in range: truncation toward zero. (Out of
    range, and for NaN, Go leaves the result to the platform; 0 here.) *)
Definition truncate_float (f : float) : Z :=
  match Prim2SF f with
  | S754_finite false m e =>
      let n := if 0 <=? e then Z.pos m * 2 ^ e else Z.pos m / 2 ^ (- e) in
      if n <=? MaxUint64 then n else 0
  | _ => 0
  end.

(** A merge sort by [less]: [a] may stand before [b] unless [b] is less. *)
Definition refSort (A : Type) (less : A → A → bool) : list A → list A :=
  @merge_sort A (λ a b, less b a = false) (λ a b, bool_eq_dec (less b a) false).

(** Reference externals: [range] in the order of [map_to_list],
    [sort.Slice] as a merge sort, sizes printed in bytes, and payloads
    that list the keys (the JSON text itself plays no part below). *)
#[global] Instance refExternals : Externals := {
  json_Marshal_tps := λ m, Ok (list_byte_of_string (String.concat "," (map_to_list m).*1));
  json_Marshal_bsf := λ m, Ok (list_byte_of_string (String.concat "," (map_to_list m).*1));
  uint64_of_float64 := truncate_float;
  humanize_Bytes := λ n, pretty n +:+ " B";
  range_topics := map_to_list;
  range_partitions := λ _, map_to_list;
  range_brokers := map_to_list;
  sort_Slice := refSort
}.

(** A reference platform: Prometheus answers from a table of queries (an
    unknown query is an error) without warnings, every address makes a
    client, and the connection finds an empty store, unless no server was
    named. *)
#[global] Instance refPlatform : Platform (gmap string model_Value) memzk.store := {
  api_NewClient := λ _, None;
  v1api_Query := λ q p,
    (match p !! q with
     | Some v => (Ok v, [])
     | None => (Err "unknown query", [])
     end, p);
  zk_Connect := λ servers,
    match servers with
    | [] => Err "zk: server list must not be empty"
    | _ => Ok ∅
    end
}.

(** ** Concrete stores and maps used in the examples below *)

(** world:anyone with every permission but ADMIN: not the open ACL. *)
Definition aclNoAdmin : zk.ACL := zk.mkACL 15 "world" "anyone".

(** A store left by an earlier run, whose directory lost the ADMIN bit. *)
Definition storeNoAdmin : memzk.store :=
  {[ "/topicmappr" := memzk.mkZnode [] [aclNoAdmin] 0;
     "/topicmappr/partitionmeta" :=
       memzk.mkZnode (list_byte_of_string "old") [openACL] 0;
     "/topicmappr/brokermetrics" :=
       memzk.mkZnode (list_byte_of_string "old") [openACL] 0 ]}.

Definition brokers1 : brokerStorageFree :=
  {[ "1001" := {| StorageFree := 512%float |} ]}.

Definition partitions1 : topicPartitionSize :=
  {[ "t1" := {[ "10" := {| Size := 100%float |};
                "2" := {| Size := 200%float |} ]} ]}.

(** Flags of a live run, and a Prometheus that knows their two queries. *)
Definition flags1 : Flags :=
  mkFlags "http://prometheus:9090" "zookeeper:2181/kafka"
    "partition_size" "broker_storage" "broker_id" false.

Definition prometheus1 : gmap string model_Value :=
  {[ "broker_storage" :=
       ValVector [ mkSample {[ "broker_id" := "1001" ]} 512%float 0 ];
     "partition_size" :=
       ValVector [ mkSample {[ "topic" := "t1"; "partition" := "0" ]} 100%float 0 ] ]}.

Example scenario_two_partitions :
  getPartitionSizes (Ok (ValVector
    [ mkSample {[ "topic" := "t1"; "partition" := "0" ]} 100%float 0;
      mkSample {[ "topic" := "t1"; "partition" := "1" ]} 200%float 0 ]))
  = Return {[ "t1" := {[ "0" := {| Size := 100%float |};
                         "1" := {| Size := 200%float |} ]} ]}.
Proof. vm_compute. reflexivity. Qed.

Example dry_run_example :
  dryRun (E := refExternals)
    {[ "1001" := {| StorageFree := 512%float |} ]}
    {[ "t1" := {[ "10" := {| Size := 100%float |};
                  "2" := {| Size := 200%float |} ]} ]}
  = [ "partition mapping"; "topic: t1";
      "partition 2    size: 200 B"; "partition 10   size: 100 B";
      "fetched metrics"; "broker #1001    storage free: 512 B" ].
Proof. vm_compute. reflexivity. Qed.

Example Atoi_examples :
  Atoi "42" = (42, None) ∧ Atoi "-7" = (-7, None) ∧ Atoi "" = (0, Some ErrSyntax)
  ∧ Atoi "x1" = (0, Some ErrSyntax)
  ∧ Atoi "9223372036854775808" = (MaxInt64, Some ErrRange).
Proof. vm_compute. repeat split; reflexivity. Qed.

(** One rune for "e" with an acute accent (two bytes) and for the euro
    sign (three bytes), one per byte for a lone continuation byte. *)
Example RuneCountInString_examples :
  RuneCountInString "ab" = 2%nat
  ∧ RuneCountInString (String (ascii_of_nat 195) (String (ascii_of_nat 169) "")) = 1%nat
  ∧ RuneCountInString
      (String (ascii_of_nat 226) (String (ascii_of_nat 130)
         (String (ascii_of_nat 172) "x"))) = 2%nat
  ∧ RuneCountInString (String (ascii_of_nat 169) "a") = 2%nat
  ∧ RuneCountInString (String (ascii_of_nat 226) (String (ascii_of_nat 130) "")) = 2%nat
  ∧ pad_right 4 (String (ascii_of_nat 195) (String (ascii_of_nat 169) "1"))
    = String (ascii_of_nat 195) (String (ascii_of_nat 169) "1  ").
Proof. vm_compute. repeat split; reflexivity. Qed.

Example splitZkAddr_example :
  splitZkAddr "zookeeper:2181/my-chroot" = ("zookeeper:2181", "/my-chroot")
  ∧ splitZkAddr "zookeeper:2181" = ("zookeeper:2181", "").
Proof. vm_compute. split; reflexivity. Qed.

(** * Properties of the mappers *)

(** A list that has an element with key [k] has a last one. *)
Lemma last_with_key {A K} (key : A → K) `{EqDecision K} (k : K) (v : list A) :
  (∃ s, s ∈ v ∧ key s = k) →
  ∃ pre s post, v = pre ++ s :: post ∧ key s = k
                ∧ Forall (λ x, key x ≠ k) post.
Proof.
  induction v as [|x v IH] using rev_ind; intros (s & Hin & Hk).
  - by apply elem_of_nil in Hin.
  - destruct (decide (key x = k)) as [Hx|Hx].
    + exists v, x, []. by repeat split.
    + apply elem_of_app in Hin as [Hin|Hin%list_elem_of_singleton]; [|congruence].
      destruct IH as (pre & s' & post & -> & Hs' & Hpost); [by eauto|].
      exists pre, s', (post ++ [x]). rewrite <- app_assoc. repeat split; [done..|].
      apply Forall_app; split; [done|]. by constructor.
Qed.

Section BrokerFold.
Context (l : string).

Lemma brokerStep_lookup m s k :
  brokerStep l m s !! k =
  if decide (label s l = k) then Some {| StorageFree := Value s |} else m !! k.
Proof. unfold brokerStep. apply lookup_insert. Qed.

(** Samples with another broker id leave the entry of [k] alone. *)
Lemma brokerFold_other v m k :
  Forall (λ x, label x l ≠ k) v →
  foldl (brokerStep l) m v !! k = m !! k.
Proof.
  intros Hv. revert m. induction Hv as [|x v Hx _ IH]; intros m; [done|].
  simpl. rewrite IH, brokerStep_lookup. by destruct (decide _).
Qed.

(** The last sample with broker id [k] decides the entry of [k]. *)
Lemma brokerFold_last pre s post m :
  Forall (λ x, label x l ≠ label s l) post →
  foldl (brokerStep l) m (pre ++ s :: post) !! label s l
  = Some {| StorageFree := Value s |}.
Proof.
  intros Hpost. rewrite foldl_app. simpl.
  rewrite brokerFold_other by done.
  rewrite brokerStep_lookup. by destruct (decide _).
Qed.

(** Every key of the result is the broker id of some sample. *)
Lemma brokerFold_dom v k :
  is_Some (foldl (brokerStep l) ∅ v !! k) ↔ ∃ s, s ∈ v ∧ label s l = k.
Proof.
  split.
  - intros Hk. destruct (decide (Exists (λ x, label x l = k) v)) as [He|Hn].
    + apply Exists_exists in He. naive_solver.
    + apply not_Exists_Forall in Hn; [|solve_decision].
      rewrite brokerFold_other in Hk.
      * rewrite lookup_empty in Hk. by destruct Hk.
      * eapply Forall_impl; [exact Hn|]. simpl. intros x Hx. exact Hx.
  - intros Hs. apply (last_with_key (λ x, label x l)) in Hs
      as (pre & s & post & -> & <- & Hpost).
    rewrite brokerFold_last; [by eexists|done].
Qed.

End BrokerFold.

Lemma partitionStep_lookup2 m s t p :
  lookup2 (partitionStep m s) t p =
  if decide (pairOf s = (t, p)) then Some {| Size := Value s |}
  else lookup2 m t p.
Proof.
  unfold lookup2, partitionStep, pairOf.
  destruct (decide (label s "topic" = t)) as [<-|Ht].
  - rewrite lookup_insert_eq. simpl. rewrite lookup_insert.
    destruct (decide (label s "partition" = p)) as [<-|Hp].
    + by rewrite decide_True.
    + rewrite decide_False by congruence.
      destruct (m !! label s "topic"); simpl; [done|apply lookup_empty].
  - rewrite lookup_insert_ne by done. by rewrite decide_False by congruence.
Qed.

Lemma partitionFold_other v m t p :
  Forall (λ x, pairOf x ≠ (t, p)) v →
  lookup2 (foldl partitionStep m v) t p = lookup2 m t p.
Proof.
  intros Hv. revert m. induction Hv as [|x v Hx _ IH]; intros m; [done|].
  simpl. rewrite IH, partitionStep_lookup2. by rewrite decide_False.
Qed.

Lemma partitionFold_last pre s post m :
  Forall (λ x, pairOf x ≠ pairOf s) post →
  lookup2 (foldl partitionStep m (pre ++ s :: post)) (label s "topic")
    (label s "partition") = Some {| Size := Value s |}.
Proof.
  intros Hpost. rewrite foldl_app. simpl.
  rewrite partitionFold_other by done.
  rewrite partitionStep_lookup2. by rewrite decide_True.
Qed.

(** A cell of the result comes from a sample, and holds the value of one. *)
Lemma partitionFold_cell v t p x :
  lookup2 (foldl partitionStep ∅ v) t p = Some x →
  ∃ s, s ∈ v ∧ pairOf s = (t, p) ∧ x = {| Size := Value s |}.
Proof.
  intros Hx. destruct (decide (Exists (λ s, pairOf s = (t, p)) v)) as [He|Hn].
  - apply Exists_exists in He.
    apply (last_with_key pairOf) in He as (pre & s & post & -> & Hs & Hpost).
    exists s. split; [set_solver|]. split; [done|].
    injection Hs as <- <-. rewrite partitionFold_last in Hx.
    + congruence.
    + eapply Forall_impl; [exact Hpost|]. done.
  - apply not_Exists_Forall in Hn; [|solve_decision].
    rewrite partitionFold_other in Hx.
    + unfold lookup2 in Hx. by rewrite lookup_empty in Hx.
    + eapply Forall_impl; [exact Hn|]. simpl. intros s Hs. exact Hs.
Qed.

(** No topic of the result is left without a partition. *)
Lemma partitionFold_inner_nonempty v m :
  (∀ t inner, m !! t = Some inner → inner ≠ ∅) →
  ∀ t inner, foldl partitionStep m v !! t = Some inner → inner ≠ ∅.
Proof.
  revert m. induction v as [|s v IH]; intros m Hm; [done|].
  simpl. apply IH. intros t inner. unfold partitionStep.
  rewrite lookup_insert. destruct (decide _) as [->|Hne]; [|by apply Hm].
  intros [= <-]. apply insert_non_empty.
Qed.


(** ** The claims on [getBrokerFreeSpace] and [getPartitionSizes] *)

(** C1, as stated, fails: [getBrokerFreeSpace] consults no translation
    table. With a table that does not know the raw value 10.0.0.1, the call
    still returns a map, and the sample sits in it under its raw value. *)
Lemma C1_counterexample_raw_value_kept :
  ({[ "10.0.0.2" := "1002" ]} : gmap string string)
    !! label (mkSample {[ "broker_id" := "10.0.0.1" ]} 5%float 0) "broker_id"
  = None
  ∧ getBrokerFreeSpace "broker_id"
      (Ok (ValVector [ mkSample {[ "broker_id" := "10.0.0.1" ]} 5%float 0 ]))
    = Return {[ "10.0.0.1" := {| StorageFree := 5%float |} ]}.
Proof. split; vm_compute; reflexivity. Qed.

(** C1, amended: on a vector result [getBrokerFreeSpace] never fails and
    translates nothing. Its keys are exactly the raw values of the broker-id
    label of the samples, each holding the value of the last sample with
    that raw value; the only failure is a failed query, which ends the
    process with status 1. *)
Theorem C1_getBrokerFreeSpace_keeps_raw_ids (l : string) (v : list Sample) :
  (∃ m, getBrokerFreeSpace l (Ok (ValVector v)) = Return m
     ∧ (∀ k, is_Some (m !! k) ↔ ∃ s, s ∈ v ∧ label s l = k)
     ∧ (∀ pre s post, v = pre ++ s :: post →
          Forall (λ x, label x l ≠ label s l) post →
          m !! label s l = Some {| StorageFree := Value s |}))
  ∧ (∀ e, getBrokerFreeSpace l (Err e) = Exit 1).
Proof.
  split; [|done]. eexists. split; [reflexivity|]. split.
  - intros k. apply brokerFold_dom.
  - intros pre s post -> Hpost. by apply brokerFold_last.
Qed.




(** C8: a result that is not a vector gives two empty maps, and no exit. *)
Theorem C8_non_vector_gives_empty_maps (l : string) (result : model_Value) :
  (∀ v, result ≠ ValVector v) →
  getBrokerFreeSpace l (Ok result) = Return ∅
  ∧ getPartitionSizes (Ok result) = Return ∅.
Proof. intros Hv. destruct result; try done. by destruct (Hv samples). Qed.

Lemma C8_witness :
  getBrokerFreeSpace "broker_id" (Ok (ValScalar 1%float 0)) = Return ∅
  ∧ getPartitionSizes (Ok (ValScalar 1%float 0)) = Return ∅.
Proof. apply C8_non_vector_gives_empty_maps. intros v. discriminate. Defined.

(** C6: when every sample carries both labels, the result has a cell for
    exactly the (topic, partition) pairs that occur, no topic without a
    partition, every cell holds the value of a sample with that pair, and
    the last sample with a pair decides its cell. *)
Theorem C6_getPartitionSizes_last_sample_wins (v : list Sample) :
  Forall (λ s, is_Some (Metric s !! "topic")
               ∧ is_Some (Metric s !! "partition")) v →
  ∃ m, getPartitionSizes (Ok (ValVector v)) = Return m
    ∧ (∀ t p, is_Some (lookup2 m t p) ↔
         ∃ s, s ∈ v ∧ Metric s !! "topic" = Some t
                    ∧ Metric s !! "partition" = Some p)
    ∧ (∀ t inner, m !! t = Some inner → inner ≠ ∅)
    ∧ (∀ t p x, lookup2 m t p = Some x →
         ∃ s, s ∈ v ∧ Metric s !! "topic" = Some t
                    ∧ Metric s !! "partition" = Some p
                    ∧ x = {| Size := Value s |})
    ∧ (∀ pre s post t p, v = pre ++ s :: post →
         Metric s !! "topic" = Some t → Metric s !! "partition" = Some p →
         Forall (λ x, ¬ (Metric x !! "topic" = Some t
                         ∧ Metric x !! "partition" = Some p)) post →
         lookup2 m t p = Some {| Size := Value s |}).
Proof.
  intros Hboth. eexists. split; [reflexivity|].
  assert (∀ s t p, s ∈ v →
    pairOf s = (t, p) ↔
    Metric s !! "topic" = Some t ∧ Metric s !! "partition" = Some p) as Hpair.
  { intros s t p Hs. rewrite Forall_forall in Hboth.
    destruct (Hboth s Hs) as [[t' Ht] [p' Hp]].
    unfold pairOf, label. rewrite Ht, Hp. simpl.
    split; [intros [= -> ->]; by split|intros [[= ->] [= ->]]; reflexivity]. }
  assert (∀ pre s post t p, v = pre ++ s :: post →
    Metric s !! "topic" = Some t → Metric s !! "partition" = Some p →
    Forall (λ x, ¬ (Metric x !! "topic" = Some t
                    ∧ Metric x !! "partition" = Some p)) post →
    lookup2 (foldl partitionStep ∅ v) t p = Some {| Size := Value s |}) as Hlast.
  { intros pre s post t p Hv Ht Hp Hpost.
    assert (pairOf s = (t, p)) as Hs.
    { apply Hpair; [|done]. rewrite Hv. apply elem_of_app. right. left. }
    injection Hs as <- <-. rewrite Hv. apply partitionFold_last.
    apply Forall_forall. intros x Hx Heq.
    rewrite Forall_forall in Hpost. apply (Hpost x Hx).
    apply Hpair; [|done]. rewrite Hv. apply elem_of_app. right. by right. }
  assert (∀ t p x, lookup2 (foldl partitionStep ∅ v) t p = Some x →
    ∃ s, s ∈ v ∧ Metric s !! "topic" = Some t
               ∧ Metric s !! "partition" = Some p
               ∧ x = {| Size := Value s |}) as Hcell.
  { intros t p x Hx. apply partitionFold_cell in Hx as (s & Hs & Hp & ->).
    exists s. apply Hpair in Hp as [Ht Hp]; [|done]. by repeat split. }
  split; [|split; [|split]]; [| |exact Hcell|exact Hlast].
  - intros t p. split.
    + intros [x Hx]. apply Hcell in Hx as (s & Hs & Ht & Hp & _).
      exists s. by repeat split.
    + intros (s & Hs & Ht & Hp).
      assert (∃ s', s' ∈ v ∧ pairOf s' = (t, p)) as Hex.
      { exists s. split; [done|]. by apply Hpair. }
      apply (last_with_key pairOf) in Hex as (pre & s' & post & Hv & Hs' & Hpost).
      assert (s' ∈ v) as Hin by (rewrite Hv; apply elem_of_app; right; left).
      apply Hpair in Hs' as [Ht' Hp']; [|done].
      rewrite (Hlast pre s' post t p); [by eexists|done..|].
      apply Forall_forall. intros x Hx Heq.
      rewrite Forall_forall in Hpost. apply (Hpost x Hx).
      apply Hpair; [|done]. rewrite Hv. apply elem_of_app. right. by right.
  - apply partitionFold_inner_nonempty. intros t inner.
    by rewrite lookup_empty.
Qed.

Lemma C6_witness :
  ∃ m, getPartitionSizes (Ok (ValVector
         [ mkSample {[ "topic" := "t1"; "partition" := "0" ]} 100%float 0;
           mkSample {[ "topic" := "t1"; "partition" := "1" ]} 200%float 0;
           mkSample {[ "topic" := "t1"; "partition" := "0" ]} 300%float 0 ]))
       = Return m
    ∧ lookup2 m "t1" "0" = Some {| Size := 300%float |}
    ∧ lookup2 m "t1" "1" = Some {| Size := 200%float |}.
Proof.
  destruct (C6_getPartitionSizes_last_sample_wins
    [ mkSample {[ "topic" := "t1"; "partition" := "0" ]} 100%float 0;
      mkSample {[ "topic" := "t1"; "partition" := "1" ]} 200%float 0;
      mkSample {[ "topic" := "t1"; "partition" := "0" ]} 300%float 0 ])
    as (m & Hm & _ & _ & _ & Hlast).
  - repeat (constructor; [split; eexists; reflexivity|]). constructor.
  - exists m. split; [exact Hm|]. split.
    + apply (Hlast [ mkSample {[ "topic" := "t1"; "partition" := "0" ]} 100%float 0;
                     mkSample {[ "topic" := "t1"; "partition" := "1" ]} 200%float 0 ]
                   (mkSample {[ "topic" := "t1"; "partition" := "0" ]} 300%float 0) []);
        [reflexivity..|constructor].
    + apply (Hlast [ mkSample {[ "topic" := "t1"; "partition" := "0" ]} 100%float 0 ]
                   (mkSample {[ "topic" := "t1"; "partition" := "1" ]} 200%float 0)
                   [ mkSample {[ "topic" := "t1"; "partition" := "0" ]} 300%float 0 ]);
        [reflexivity..|].
      constructor; [|constructor]. intros [_ Hp]. vm_compute in Hp. discriminate.
Defined.

(** C3, as stated, fails: a sample without the "topic" label is not left
    out. It is stored under the empty topic. *)
Lemma C3_counterexample_sample_without_topic_kept :
  Metric (mkSample {[ "partition" := "0" ]} 5%float 0) !! "topic" = None
  ∧ getPartitionSizes
      (Ok (ValVector [ mkSample {[ "partition" := "0" ]} 5%float 0 ]))
    = Return {[ "" := {[ "0" := {| Size := 5%float |} ]} ]}.
Proof. split; vm_compute; reflexivity. Qed.

(** C3, amended: a sample that misses the "topic" or the "partition" label
    is kept, and this is no error. The missing label reads as the empty
    string: the result has a cell at the sample's pair, with an empty topic
    or an empty partition key, and the cell holds the sample's value unless
    a later sample has the same pair. *)
Theorem C3_missing_label_reads_as_empty (pre post : list Sample) (s : Sample) :
  Metric s !! "topic" = None ∨ Metric s !! "partition" = None →
  ∃ m, getPartitionSizes (Ok (ValVector (pre ++ s :: post))) = Return m
    ∧ is_Some (lookup2 m (label s "topic") (label s "partition"))
    ∧ (label s "topic" = "" ∨ label s "partition" = "")
    ∧ (Forall (λ x, pairOf x ≠ pairOf s) post →
       lookup2 m (label s "topic") (label s "partition")
       = Some {| Size := Value s |}).
Proof.
  intros Hmiss. eexists. split; [reflexivity|]. split; [|split].
  - destruct (last_with_key pairOf (pairOf s) (pre ++ s :: post))
      as (pre' & s' & post' & Hv & Hs' & Hpost').
    { exists s. split; [|done]. apply elem_of_app. right. left. }
    rewrite Hv. assert (pairOf s' = pairOf s) as Heq by exact Hs'.
    injection Hs' as <- <-.
    rewrite partitionFold_last; [by eexists|]. by rewrite Heq.
  - unfold label. destruct Hmiss as [Hm | Hm]; rewrite Hm; [left|right]; reflexivity.
  - intros Hpost. by apply partitionFold_last.
Qed.

Lemma C3_witness :
  ∃ m, getPartitionSizes (Ok (ValVector
         ([] ++ mkSample {[ "topic" := "t1" ]} 7%float 0 :: []))) = Return m
    ∧ is_Some (lookup2 m (label (mkSample {[ "topic" := "t1" ]} 7%float 0) "topic")
                         (label (mkSample {[ "topic" := "t1" ]} 7%float 0) "partition"))
    ∧ (label (mkSample {[ "topic" := "t1" ]} 7%float 0) "topic" = ""
       ∨ label (mkSample {[ "topic" := "t1" ]} 7%float 0) "partition" = "")
    ∧ (Forall (λ x, pairOf x ≠ pairOf (mkSample {[ "topic" := "t1" ]} 7%float 0)) [] →
       lookup2 m (label (mkSample {[ "topic" := "t1" ]} 7%float 0) "topic")
                 (label (mkSample {[ "topic" := "t1" ]} 7%float 0) "partition")
       = Some {| Size := 7%float |}).
Proof.
  apply (C3_missing_label_reads_as_empty [] []
           (mkSample {[ "topic" := "t1" ]} 7%float 0)).
  right. reflexivity.
Defined.

(** * Properties of the paths *)

Lemma string_length_app (s1 s2 : string) :
  String.length (s1 +:+ s2) = (String.length s1 + String.length s2)%nat.
Proof. induction s1 as [|a s1 IH]; simpl; [done|]. by rewrite IH. Qed.

Lemma slice_from_app (pre s : string) :
  slice_from (String.length pre) (pre +:+ s) = s.
Proof. induction pre as [|a pre IH]; simpl; [by destruct s|done]. Qed.

Lemma slice_to_app (pre s : string) :
  slice_to (String.length pre) (pre +:+ s) = pre.
Proof. induction pre as [|a pre IH]; simpl; [by destruct s|by rewrite IH]. Qed.

Lemma IndexByte_lower_bound (s : string) (c : ascii) : -1 ≤ IndexByte s c.
Proof.
  induction s as [|a s IH]; simpl; [done|].
  destruct (decide (a = c)); [done|].
  destruct (Z.ltb_spec (IndexByte s c) 0); lia.
Qed.

(** Without a [c] in it, a string has no index for [c]. *)
Lemma IndexByte_absent (s : string) (c : ascii) :
  (∀ a b, s ≠ a +:+ String c b) → IndexByte s c = -1.
Proof.
  induction s as [|x s IH]; intros Hs; simpl; [done|].
  destruct (decide (x = c)) as [->|Hx].
  - by destruct (Hs "" s).
  - rewrite IH; [done|]. intros a b ->. by apply (Hs (String x a) b).
Qed.

(** The index of [c] is the length of the longest prefix without [c]. *)
Lemma IndexByte_first (pre suf : string) (c : ascii) :
  (∀ a b, pre ≠ a +:+ String c b) →
  IndexByte (pre +:+ String c suf) c = Z.of_nat (String.length pre).
Proof.
  induction pre as [|x pre IH]; intros Hpre; simpl.
  - by rewrite decide_True.
  - destruct (decide (x = c)) as [->|Hx].
    + by destruct (Hpre "" pre).
    + rewrite IH.
      * destruct (Z.ltb_spec (Z.of_nat (String.length pre)) 0); lia.
      * intros a b ->. by apply (Hpre (String x a) b).
Qed.

(** A string with a [c] in it has an index for [c]. *)
Lemma IndexByte_absent_inv (s : string) (c : ascii) :
  IndexByte s c = -1 → ∀ a b, s ≠ a +:+ String c b.
Proof.
  intros Hs a b ->. revert Hs. induction a as [|x a IH]; simpl.
  - by rewrite decide_True.
  - destruct (decide (x = c)); [done|].
    destruct (Z.ltb_spec (IndexByte (a +:+ String c b) c) 0) as [Hlt|Hge]; [|lia].
    intros _. apply IH. pose proof (IndexByte_lower_bound (a +:+ String c b) c). lia.
Qed.

Lemma zkPath_inj (zkChroot a b : string) :
  zkPath zkChroot a = zkPath zkChroot b → a = b.
Proof.
  unfold zkPath. intros H.
  apply (inj (String.app (zkDir zkChroot))) in H.
  by apply (inj (String.app "/")) in H.
Qed.

Lemma zkPath_ne_dir (zkChroot a : string) : zkPath zkChroot a ≠ zkDir zkChroot.
Proof.
  unfold zkPath. intros H. apply (f_equal String.length) in H.
  rewrite !string_length_app in H. simpl in H. lia.
Qed.

(** * Properties of the publisher *)

Section PublisherFacts.
Context {St : Type} {conn : zk.Conn St} {E : Externals}.

(** Unfold one call on the connection and name what it returned. *)
Ltac zk_step :=
  match goal with
  | |- context [doDelete ?p ?v ?w] =>
      unfold doDelete; destruct (zk.Delete p v (zkConn w)) as [? ?]; simpl
  | |- context [doGetACL ?p ?w] =>
      unfold doGetACL; destruct (zk.GetACL p (zkConn w)) as [[?|?] ?]; simpl
  | |- context [doCreate ?p ?d ?f ?a ?w] =>
      unfold doCreate; destruct (zk.Create p d f a (zkConn w)) as [? ?]; simpl
  end.

Lemma fatalUnless_None benign err :
  fatalUnless benign err = None ↔ err = None ∨ err = Some benign.
Proof.
  unfold fatalUnless. destruct err as [e|]; [|by intuition].
  destruct (decide (e = benign)) as [->|Hne]; [by intuition|].
  split; [done|]. intros [?|[= ?]]; done.
Qed.


Lemma waclExists_elem_of (a : zk.ACL) (acl : list zk.ACL) :
  waclExists a acl = true ↔ a ∈ acl.
Proof.
  induction acl as [|x acl IH]; simpl.
  - split; [done|]. by intros ?%elem_of_nil.
  - destruct (decide (x = a)) as [->|Hne].
    + split; [left|done].
    + rewrite IH. split; [by right|].
      intros [?|?]%elem_of_cons; [congruence|done].
Qed.

(** [ensureDir] calls [GetACL] on the directory, then at most [Create] on it,
    and logs nothing. *)
Lemma ensureDir_calls dir (w : world St) :
  ∃ cs, calls (ensureDir dir w).2 = calls w ++ zk.CallGetACL dir :: cs
        ∧ Forall (λ c, callPath c = Some dir) cs
        ∧ logged (ensureDir dir w).2 = logged w.
Proof.
  unfold ensureDir. zk_step.
  - destruct (decide _); [zk_step; destruct (fatalUnless _ _)|]; simpl;
      rewrite <- ?app_assoc; eexists; (split; [reflexivity|]);
      split; try done; by repeat constructor.
  - destruct (waclExists _ _); simpl; exists []; by repeat split.
Qed.

(** [writeToZookeeper] first deletes the data node; every later call is
    about the directory or the data node. *)
Lemma writeToZookeeper_calls zkChroot path data (w : world St) :
  ∃ cs, calls (writeToZookeeper zkChroot path data w).2
        = calls w ++ zk.CallDelete (zkPath zkChroot path) 0 :: cs
        ∧ Forall (λ c, callPath c = Some (zkDir zkChroot)
                       ∨ callPath c = Some (zkPath zkChroot path)) cs.
Proof.
  unfold writeToZookeeper. fold (zkPath zkChroot path). zk_step.
  destruct (fatalUnless _ _); simpl; [by exists []|].
  match goal with |- context [ensureDir ?d ?w'] =>
    destruct (ensureDir_calls d w') as (cs & Hcs & Hdir & _);
    destruct (ensureDir d w') as [err w2] end.
  simpl in *. destruct err; simpl.
  - rewrite Hcs, <- app_assoc. eexists. split; [reflexivity|].
    constructor; [by left|]. eapply Forall_impl; [exact Hdir|]. by left.
  - unfold createDataNode. zk_step. rewrite Hcs.
    match goal with |- context [match ?o with Some _ => _ | None => _ end] =>
      destruct o end; simpl; rewrite <- !app_assoc; simpl;
      (eexists; split; [reflexivity|]);
      (constructor; [by left|]); (apply Forall_app; split;
        [eapply Forall_impl; [exact Hdir|]; by left
        |constructor; [by right|constructor]]).
Qed.

End PublisherFacts.

(** C7: the chroot is the address from its first '/' on (empty when there
    is none); the directory is the chroot followed by "/topicmappr"; the
    data node, which is the node [writeToZookeeper] first deletes, is the
    directory, "/" and the node name. *)
Theorem C7_directory_and_node_paths (flZkAddr path : string) :
  (∀ host rest, flZkAddr = host +:+ "/" +:+ rest →
     (∀ a b, host ≠ a +:+ "/" +:+ b) →
     splitZkAddr flZkAddr = (host, "/" +:+ rest)
     ∧ zkDir (splitZkAddr flZkAddr).2 = "/" +:+ rest +:+ "/topicmappr")
  ∧ ((∀ a b, flZkAddr ≠ a +:+ "/" +:+ b) →
     splitZkAddr flZkAddr = (flZkAddr, "")
     ∧ zkDir (splitZkAddr flZkAddr).2 = "/topicmappr")
  ∧ zkPath (splitZkAddr flZkAddr).2 path
    = zkDir (splitZkAddr flZkAddr).2 +:+ "/" +:+ path
  ∧ (∀ St (conn : zk.Conn St) data (w : world St), ∃ cs,
       calls (writeToZookeeper (splitZkAddr flZkAddr).2 path data w).2
       = calls w
         ++ zk.CallDelete (zkDir (splitZkAddr flZkAddr).2 +:+ "/" +:+ path) 0
         :: cs)
  ∧ zkPath "/my-chroot" "partitionmeta" = "/my-chroot/topicmappr/partitionmeta".
Proof.
  split; [|split; [|split; [|split]]].
  - intros host rest -> Hhost. unfold splitZkAddr.
    change (host +:+ "/" +:+ rest) with (host +:+ String "/" rest).
    rewrite IndexByte_first by exact Hhost.
    destruct (Z.leb_spec 0 (Z.of_nat (String.length host))); [|lia].
    rewrite Nat2Z.id, slice_to_app, slice_from_app. done.
  - intros Hno. unfold splitZkAddr.
    rewrite IndexByte_absent by exact Hno. done.
  - reflexivity.
  - intros St conn data w.
    destruct (writeToZookeeper_calls (splitZkAddr flZkAddr).2 path data w)
      as (cs & Hcs & _).
    by exists cs.
  - reflexivity.
Qed.

Lemma C7_witness :
  splitZkAddr "zookeeper:2181/my-chroot" = ("zookeeper:2181", "/" +:+ "my-chroot")
  ∧ zkDir (splitZkAddr "zookeeper:2181/my-chroot").2
    = "/" +:+ "my-chroot" +:+ "/topicmappr".
Proof.
  apply (proj1 (C7_directory_and_node_paths "zookeeper:2181/my-chroot" "partitionmeta")
           "zookeeper:2181" "my-chroot"); [reflexivity|].
  apply IndexByte_absent_inv. reflexivity.
Defined.

Section PublisherClaims.
Context {St : Type} {conn : zk.Conn St} {E : Externals}.

Lemma createDataNode_calls path data (w : world St) :
  calls (createDataNode path data w).2
  = calls w ++ [zk.CallCreate path data 0 [openACL]].
Proof.
  unfold createDataNode, doCreate. simpl.
  destruct (zk.Create _ _ _ _ _) as [[e|] st]; reflexivity.
Qed.

(** The wrong-ACL way out of [writeToZookeeper]: after the delete and the
    getACL, with nothing logged. *)
Lemma writeToZookeeper_wrong_acl (zkChroot path : string)
    (data : list Byte.byte) (w : world St) (acl : list zk.ACL) :
  let del := doDelete (zkPath zkChroot path) 0 w in
  let get := doGetACL (zkDir zkChroot) del.2 in
  del.1 = None ∨ del.1 = Some zk.ErrNoNode →
  get.1 = Ok acl →
  openACL ∉ acl →
  writeToZookeeper zkChroot path data w
  = (Some (ErrWrongACL (zkDir zkChroot) acl), get.2)
  ∧ calls get.2 = calls w ++ [ zk.CallDelete (zkPath zkChroot path) 0;
                               zk.CallGetACL (zkDir zkChroot) ]
  ∧ logged get.2 = logged w.
Proof.
  intros del get. subst del get.
  unfold writeToZookeeper, ensureDir. fold (zkPath zkChroot path).
  change wacl with openACL.
  unfold doDelete. destruct (zk.Delete _ _ _) as [err1 st1]. simpl.
  intros Hdel%fatalUnless_None. rewrite Hdel.
  unfold doGetACL. destruct (zk.GetACL _ _) as [r st2]. simpl.
  intros -> Hacl.
  destruct (waclExists openACL acl) eqn:Hw.
  - by apply waclExists_elem_of in Hw.
  - by rewrite <- app_assoc.
Qed.

(** C4: [writeToZookeeper] gives up at once when the delete of the old data
    node fails with anything but "no node". Otherwise it reads the
    directory's ACL.
    - The directory exists: the data node is created when the ACL list has
      the open ACL among its entries; otherwise the call returns the
      wrong-ACL error, naming the directory and the ACL found, after the
      delete and the getACL and nothing else.
    - The directory does not exist: it is created with the open ACL; a
      result of nil or "node exists" leads on to the creation of the data
      node, any other error is returned.
    - getACL fails otherwise: that error is returned.
    Creating the data node is one [Create] with the payload and the open
    ACL. *)
Theorem C4_directory_acl_protocol (zkChroot path : string)
    (data : list Byte.byte) (w : world St) :
  let del := doDelete (zkPath zkChroot path) 0 w in
  let get := doGetACL (zkDir zkChroot) del.2 in
  let mk := doCreate (zkDir zkChroot) [] 0 [openACL] get.2 in
  (∀ e, del.1 = Some e → e ≠ zk.ErrNoNode →
     writeToZookeeper zkChroot path data w
     = (Some (ErrDeletePath (zkPath zkChroot path) e), del.2))
  ∧ (del.1 = None ∨ del.1 = Some zk.ErrNoNode →
     match get.1 with
     | Ok acl =>
         (openACL ∈ acl →
            writeToZookeeper zkChroot path data w
            = createDataNode (zkPath zkChroot path) data get.2)
         ∧ (openACL ∉ acl →
            writeToZookeeper zkChroot path data w
            = (Some (ErrWrongACL (zkDir zkChroot) acl), get.2)
            ∧ calls get.2
              = calls w ++ [ zk.CallDelete (zkPath zkChroot path) 0;
                             zk.CallGetACL (zkDir zkChroot) ])
     | Err e =>
         (e = zk.ErrNoNode →
            (mk.1 = None ∨ mk.1 = Some zk.ErrNodeExists →
               writeToZookeeper zkChroot path data w
               = createDataNode (zkPath zkChroot path) data mk.2)
            ∧ (∀ e', mk.1 = Some e' → e' ≠ zk.ErrNodeExists →
                 writeToZookeeper zkChroot path data w
                 = (Some (ErrCreateNode (zkDir zkChroot) e'), mk.2)))
         ∧ (e ≠ zk.ErrNoNode →
              writeToZookeeper zkChroot path data w
              = (Some (ErrGetACL (zkDir zkChroot) e), get.2))
     end)
  ∧ ∀ w', calls (createDataNode (zkPath zkChroot path) data w').2
          = calls w' ++ [ zk.CallCreate (zkPath zkChroot path) data 0 [openACL] ].
Proof.
  intros del get mk.
  split; [|split; [|intros w'; apply createDataNode_calls]];
    subst del get mk;
    unfold writeToZookeeper, ensureDir; fold (zkPath zkChroot path);
    change (zk.WorldACL zk.PermAll) with [openACL]; change wacl with openACL;
    unfold doDelete; destruct (zk.Delete _ _ _) as [err1 st1]; simpl.
  { intros e -> Hne. unfold fatalUnless. by rewrite decide_False. }
  intros Hdel%fatalUnless_None. rewrite Hdel.
  unfold doGetACL. destruct (zk.GetACL _ _) as [[e|acl] st2]; simpl.
  - split.
    + intros ->. rewrite decide_True by done.
      unfold doCreate. destruct (zk.Create _ _ _ _ _) as [err3 st3].
      simpl. split.
      * intros Hok%fatalUnless_None. by rewrite Hok.
      * intros e' -> Hne. unfold fatalUnless. by rewrite decide_False.
    + intros Hne. by rewrite decide_False.
  - destruct (waclExists openACL acl) eqn:Hw.
    + apply waclExists_elem_of in Hw. split; [done|]. by intros [].
    + split.
      * intros Hin%waclExists_elem_of. congruence.
      * intros _. split; [done|]. by rewrite <- app_assoc.
Qed.

Lemma calls_of_write_avoid (zkChroot path other : string) (cs : list zk.call) :
  path ≠ other →
  Forall (λ c, callPath c = Some (zkDir zkChroot)
               ∨ callPath c = Some (zkPath zkChroot path)) cs →
  Forall (λ c, callPath c ≠ Some (zkPath zkChroot other)) cs.
Proof.
  intros Hne Hcs. eapply Forall_impl; [exact Hcs|].
  intros c [Hc|Hc]; rewrite Hc; intros [= Heq].
  - symmetry in Heq. by apply zkPath_ne_dir in Heq.
  - by apply zkPath_inj in Heq.
Qed.

(** C5: in a live run whose two payloads were serialized, the calls on the
    connection are those of the partitionmeta write (none of them about the
    brokermetrics node), then those of the brokermetrics write (none of
    them about the partitionmeta node), then [Close]. When the partitionmeta
    write returns an error, [processData] returns that error and the calls
    of the second write are none; when it succeeds, the second write runs
    next and starts by deleting the brokermetrics node. When a payload
    cannot be serialized, nothing is written at all. *)
Theorem C5_partitionmeta_first_fail_fast (zkChroot : string)
    (brokerMetrics : brokerStorageFree) (partitionMapping : topicPartitionSize)
    (w : world St) :
  let out := processData false zkChroot brokerMetrics partitionMapping w in
  match json_Marshal_tps partitionMapping, json_Marshal_bsf brokerMetrics with
  | Ok d1, Ok d2 =>
      let first := writeToZookeeper zkChroot "partitionmeta" d1 w in
      let second := writeToZookeeper zkChroot "brokermetrics" d2 first.2 in
      ∃ c1 c2,
        calls first.2
        = calls w ++ zk.CallDelete (zkPath zkChroot "partitionmeta") 0 :: c1
        ∧ calls out.2
          = calls w ++ zk.CallDelete (zkPath zkChroot "partitionmeta") 0 :: c1
            ++ c2 ++ [zk.CallClose]
        ∧ Forall (λ c, callPath c ≠ Some (zkPath zkChroot "brokermetrics")) c1
        ∧ Forall (λ c, callPath c ≠ Some (zkPath zkChroot "partitionmeta")) c2
        ∧ (∀ e, first.1 = Some e → out = (Some e, doClose first.2) ∧ c2 = [])
        ∧ (first.1 = None →
             out = (second.1, doClose second.2)
             ∧ ∃ rest,
                 c2 = zk.CallDelete (zkPath zkChroot "brokermetrics") 0 :: rest)
  | _, _ => is_Some out.1 ∧ out.2 = doClose w
  end.
Proof.
  intros out. subst out. unfold processData.
  destruct (json_Marshal_tps partitionMapping) as [e1|d1]; [by split; [eexists|]|].
  destruct (json_Marshal_bsf brokerMetrics) as [e2|d2]; [by split; [eexists|]|].
  simpl. unfold processSwitch.
  destruct (writeToZookeeper_calls zkChroot "partitionmeta" d1 w)
    as (c1 & Hc1 & Hp1).
  destruct (writeToZookeeper zkChroot "partitionmeta" d1 w) as [err1 w1].
  simpl in *. exists c1.
  apply (calls_of_write_avoid _ _ "brokermetrics") in Hp1; [|done].
  destruct err1 as [e|].
  - exists []. simpl. rewrite Hc1, <- app_assoc. simpl.
    repeat split; try done. congruence.
  - destruct (writeToZookeeper_calls zkChroot "brokermetrics" d2 w1)
      as (c2 & Hc2 & Hp2).
    apply (calls_of_write_avoid _ _ "partitionmeta") in Hp2; [|done].
    destruct (writeToZookeeper zkChroot "brokermetrics" d2 w1) as [err2 w2].
    simpl in *.
    exists (zk.CallDelete (zkPath zkChroot "brokermetrics") 0 :: c2).
    assert (calls (let '(err, w0) :=
                     match err2 with
                     | Some e => (Some e, w2)
                     | None => (None, w2)
                     end in (err, doClose w0)).2
            = calls w2 ++ [zk.CallClose]) as Hout by (by destruct err2).
    rewrite Hout, Hc2, Hc1, <- !app_assoc. simpl.
    repeat split; try done.
    + constructor; [|done]. simpl. intros [= Heq]. by apply zkPath_inj in Heq.
    + by destruct err2.
    + by eexists.
Qed.

(** C2, amended: in a live run whose payloads were serialized, when the
    delete of the partitionmeta node succeeds or finds no node and the
    directory then answers with an ACL list without the open ACL,
    [processData] returns the wrong-ACL error. The calls made are that
    delete, the getACL and [Close]: nothing is created, nothing is logged,
    and no call is about the brokermetrics node. (The partitionmeta node,
    when it was there, has been deleted and stays deleted.) *)
Theorem C2_wrong_acl_aborts_after_delete (zkChroot : string)
    (brokerMetrics : brokerStorageFree) (partitionMapping : topicPartitionSize)
    (w : world St) (d1 d2 : list Byte.byte) (acl : list zk.ACL) :
  let del := doDelete (zkPath zkChroot "partitionmeta") 0 w in
  let get := doGetACL (zkDir zkChroot) del.2 in
  json_Marshal_tps partitionMapping = Ok d1 →
  json_Marshal_bsf brokerMetrics = Ok d2 →
  del.1 = None ∨ del.1 = Some zk.ErrNoNode →
  get.1 = Ok acl →
  openACL ∉ acl →
  processData false zkChroot brokerMetrics partitionMapping w
  = (Some (ErrWrongACL (zkDir zkChroot) acl), doClose get.2)
  ∧ calls (doClose get.2)
    = calls w ++ [ zk.CallDelete (zkPath zkChroot "partitionmeta") 0;
                   zk.CallGetACL (zkDir zkChroot);
                   zk.CallClose ]
  ∧ Forall (λ c, callPath c ≠ Some (zkPath zkChroot "brokermetrics"))
      [ zk.CallDelete (zkPath zkChroot "partitionmeta") 0;
        zk.CallGetACL (zkDir zkChroot);
        zk.CallClose ]
  ∧ logged (doClose get.2) = logged w.
Proof.
  intros del get Hm1 Hm2 Hdel Hget Hacl.
  destruct (writeToZookeeper_wrong_acl zkChroot "partitionmeta" d1 w acl
              Hdel Hget Hacl) as (Hw & Hcalls & Hlog).
  fold del in Hw, Hcalls, Hlog. fold get in Hw, Hcalls, Hlog.
  unfold processData. rewrite Hm1, Hm2.
  unfold processSwitch. rewrite Hw. split; [done|].
  simpl. rewrite Hcalls, <- app_assoc. split; [done|]. split; [|done].
  repeat constructor; simpl; try done; intros [= Heq].
  - by apply zkPath_inj in Heq.
  - symmetry in Heq. by apply zkPath_ne_dir in Heq.
Qed.

End PublisherClaims.

(** * Properties of the dry run *)

(** The reference externals do what Go promises. *)
#[global] Instance refExternals_laws : ExternalsLaws refExternals.
Proof.
  split; simpl; try done.
  - intros A less l. apply merge_sort_Permutation.
  - intros A less l Hasym Htrans.
    assert (Total (λ a b, less b a = false)) as Htotal.
    { intros a b. destruct (less b a) eqn:Hba; [right|by left].
      destruct (less a b) eqn:Hab; [|done].
      apply Hasym in Hab. congruence. }
    apply (Sorted_merge_sort (λ a b, less b a = false)).
Qed.

(** Which cells a vector fills does not depend on the order of its samples. *)
Lemma partitionFold_cell_iff (v : list Sample) (t p : string) :
  is_Some (lookup2 (foldl partitionStep ∅ v) t p)
  ↔ ∃ s, s ∈ v ∧ pairOf s = (t, p).
Proof.
  split.
  - intros [x Hx]. apply partitionFold_cell in Hx as (s & Hs & Hp & _). eauto.
  - intros Hs. apply (last_with_key pairOf) in Hs
      as (pre & s & post & -> & Hs & Hpost).
    assert (pairOf s = (t, p)) as Heq by exact Hs. injection Hs as <- <-.
    rewrite partitionFold_last; [by eexists|]. by rewrite Heq.
Qed.

Lemma partitionFold_perm_dom (v v' : list Sample) (t : string)
    (m m' : partitionSize) :
  v ≡ₚ v' →
  foldl partitionStep ∅ v !! t = Some m →
  foldl partitionStep ∅ v' !! t = Some m' →
  (map_to_list m).*1 ≡ₚ (map_to_list m').*1.
Proof.
  intros Hperm Hm Hm'.
  apply NoDup_Permutation; [apply NoDup_fst_map_to_list..|].
  intros p.
  assert (∀ (w : list Sample) (n : partitionSize),
    foldl partitionStep ∅ w !! t = Some n →
    p ∈ (map_to_list n).*1 ↔ ∃ s, s ∈ w ∧ pairOf s = (t, p)) as Hkeys.
  { intros w n Hn. rewrite <- partitionFold_cell_iff.
    unfold lookup2. rewrite Hn. simpl. rewrite list_elem_of_fmap. split.
    - intros ([k x] & -> & Hx%elem_of_map_to_list). by eexists.
    - intros [x Hx]. exists (p, x). split; [done|]. by apply elem_of_map_to_list. }
  rewrite (Hkeys v m Hm), (Hkeys v' m' Hm').
  by setoid_rewrite Hperm.
Qed.

Lemma partitionFold_perm_topic (v v' : list Sample) (t : string) :
  v ≡ₚ v' →
  is_Some (foldl partitionStep ∅ v !! t) →
  is_Some (foldl partitionStep ∅ v' !! t).
Proof.
  intros Hperm [m Hm].
  destruct (map_choose m) as (p & x & Hp).
  { revert Hm. apply partitionFold_inner_nonempty. intros ? ?.
    by rewrite lookup_empty. }
  assert (is_Some (lookup2 (foldl partitionStep ∅ v) t p)) as Hcell.
  { unfold lookup2. rewrite Hm. simpl. by eexists. }
  apply partitionFold_cell_iff in Hcell. setoid_rewrite Hperm in Hcell.
  apply partitionFold_cell_iff in Hcell as [y Hy].
  unfold lookup2 in Hy. destruct (foldl partitionStep ∅ v' !! t); [by eexists|done].
Qed.

Section DryRun.
Context {St : Type} {conn : zk.Conn St}.

Lemma foldl_doLog (msgs : list string) (w : world St) :
  foldl (λ w msg, doLog msg w) w msgs
  = mkWorld (zkConn w) (calls w) (logged w ++ msgs).
Proof.
  revert w. induction msgs as [|msg msgs IH]; intros w; simpl.
  - rewrite app_nil_r. by destruct w.
  - rewrite IH. simpl. by rewrite <- app_assoc.
Qed.

(** The partition numbers of a topic, as printed: sorted, and those of the
    topic's keys. *)
Lemma dryRunEntries_sorted (E : Externals) `{!ExternalsLaws E}
    (topic : string) (m : partitionSize) :
  Sorted Z.le (el.Partition <$> dryRunEntries topic m)
  ∧ el.Partition <$> dryRunEntries topic m
    ≡ₚ (λ p, (Atoi p).1) <$> (map_to_list m).*1.
Proof.
  unfold dryRunEntries. split.
  - eapply Sorted_fmap; [|apply sort_Slice_sorted].
    + intros x y Hxy. simpl in Hxy. lia.
    + intros a b Hab. lia.
    + intros a b c Hab Hbc. lia.
  - rewrite sort_Slice_perm, range_partitions_perm.
    apply reflexive_eq. rewrite <- !list_fmap_compose.
    apply list_fmap_ext. by intros i [p x] _.
Qed.

(** One entry per partition of the topic, whatever the order. *)
Lemma dryRunEntries_perm (E : Externals) `{!ExternalsLaws E}
    (topic : string) (m : partitionSize) :
  dryRunEntries topic m
  ≡ₚ (λ kv, el.mk (Atoi kv.1).1 (uint64_of_float64 (Size kv.2))) <$> map_to_list m.
Proof.
  unfold dryRunEntries. rewrite sort_Slice_perm, range_partitions_perm.
  apply reflexive_eq. apply list_fmap_ext. by intros i [k x] _.
Qed.

(** The report, line by line: the topics in the order [range] visits them,
    each with its entries. *)
Lemma dryRun_lines (E : Externals) (brokerMetrics : brokerStorageFree)
    (partitionMapping : topicPartitionSize) :
  dryRun brokerMetrics partitionMapping
  = ["partition mapping"]
    ++ concat ((λ te : string * list el.t,
                  ("topic: " +:+ te.1)
                  :: ((λ e, "partition " +:+ pad_right 4 (pretty (el.Partition e))
                            +:+ " size: " +:+ humanize_Bytes (el.Size e)) <$> te.2))
               <$> ((λ kv, (kv.1, dryRunEntries kv.1 kv.2))
                    <$> range_topics partitionMapping))
    ++ ["fetched metrics"]
    ++ ((λ kv, "broker #" +:+ pad_right 4 kv.1 +:+ " "
               +:+ pad_left 15 "storage free" +:+ ": "
               +:+ humanize_Bytes (uint64_of_float64 (StorageFree kv.2)))
        <$> range_brokers brokerMetrics).
Proof.
  unfold dryRun. rewrite <- list_fmap_compose. reflexivity.
Qed.

(** Reordering the samples changes neither the topics nor, within a topic,
    the partition keys. *)
Lemma partitionFold_perm_topics (v v' : list Sample) :
  v ≡ₚ v' →
  (map_to_list (foldl partitionStep ∅ v)).*1
  ≡ₚ (map_to_list (foldl partitionStep ∅ v')).*1.
Proof.
  intros Hperm. apply NoDup_Permutation; [apply NoDup_fst_map_to_list..|].
  assert (∀ (m : topicPartitionSize) t,
    t ∈ (map_to_list m).*1 ↔ is_Some (m !! t)) as Hkey.
  { intros m t. rewrite list_elem_of_fmap. split.
    - intros ([k x] & -> & Hx%elem_of_map_to_list). by eexists.
    - intros [x Hx]. exists (t, x). split; [done|]. by apply elem_of_map_to_list. }
  intros t. rewrite !Hkey. split.
  - by apply partitionFold_perm_topic.
  - apply partitionFold_perm_topic. by symmetry.
Qed.

(** C9: a dry run makes no call on the store (the deferred [Close] of the
    connection is the only call recorded, and the store is otherwise left
    as it was). When the maps cannot be serialized it logs nothing.
    Otherwise the lines it logs are "partition mapping", then one block per
    topic of the map, each topic once, then "fetched metrics", then one
    line per broker. The block of a topic is its "topic:" line followed by
    one "partition <number> size: <size>" line per partition of the topic,
    the number being what [strconv.Atoi] reads from the key, and these
    lines stand in ascending order of the number. A second dry run on a
    map made from the same samples in another order logs blocks for the
    same topics and, for each topic, the same sequence of partition
    numbers, whatever order [range] and [sort.Slice] choose in either
    run. *)
Theorem C9_dry_run_no_store_call_sorted_report
    (E E' : Externals) (HE : ExternalsLaws E) (HE' : ExternalsLaws E')
    (zkChroot : string) (brokerMetrics : brokerStorageFree)
    (partitionMapping : topicPartitionSize) (w : world St) :
  let out := processData (E := E) true zkChroot brokerMetrics partitionMapping w in
  let block := λ (X : Externals) (te : string * list el.t),
    ("topic: " +:+ te.1)
    :: ((λ e, "partition " +:+ pad_right 4 (pretty (el.Partition e))
              +:+ " size: " +:+ humanize_Bytes (Externals := X) (el.Size e))
        <$> te.2) in
  let brokerLines := λ (X : Externals) (l : list (string * brokerStorageFreeValue)),
    (λ kv, "broker #" +:+ pad_right 4 kv.1 +:+ " "
           +:+ pad_left 15 "storage free" +:+ ": "
           +:+ humanize_Bytes (Externals := X)
                 (uint64_of_float64 (Externals := X) (StorageFree kv.2))) <$> l in
  calls out.2 = calls w ++ [zk.CallClose]
  ∧ zkConn out.2 = zk.Close (zkConn w)
  ∧ (out.1 ≠ None → logged out.2 = logged w)
  ∧ ∃ (topics : list (string * list el.t))
      (brokers : list (string * brokerStorageFreeValue)),
      (out.1 = None →
         logged out.2
         = logged w ++ ["partition mapping"] ++ concat (block E <$> topics)
           ++ ["fetched metrics"] ++ brokerLines E brokers)
      ∧ topics.*1 ≡ₚ (map_to_list partitionMapping).*1
      ∧ brokers ≡ₚ map_to_list brokerMetrics
      ∧ (∀ topic entries, (topic, entries) ∈ topics →
           ∃ m, partitionMapping !! topic = Some m
                ∧ Sorted Z.le (el.Partition <$> entries)
                ∧ entries
                  ≡ₚ (λ kv, el.mk (Atoi kv.1).1
                              (uint64_of_float64 (Externals := E) (Size kv.2)))
                     <$> map_to_list m)
      ∧ (∀ v v' pm' brokerMetrics' (w' : world St),
           v ≡ₚ v' →
           getPartitionSizes (Ok (ValVector v)) = Return partitionMapping →
           getPartitionSizes (Ok (ValVector v')) = Return pm' →
           let out' := processData (E := E') true zkChroot brokerMetrics' pm' w' in
           ∃ (topics' : list (string * list el.t))
             (brokers' : list (string * brokerStorageFreeValue)),
             (out'.1 = None →
                logged out'.2
                = logged w' ++ ["partition mapping"] ++ concat (block E' <$> topics')
                  ++ ["fetched metrics"] ++ brokerLines E' brokers')
             ∧ topics'.*1 ≡ₚ topics.*1
             ∧ (∀ topic entries entries',
                  (topic, entries) ∈ topics → (topic, entries') ∈ topics' →
                  Sorted Z.le (el.Partition <$> entries')
                  ∧ el.Partition <$> entries = el.Partition <$> entries')).
Proof.
  intros out block brokerLines.
  assert (∀ (X : Externals) bm pm (w0 : world St),
    (processData (E := X) true zkChroot bm pm w0).1 = None →
    logged (processData (E := X) true zkChroot bm pm w0).2
    = logged w0 ++ ["partition mapping"]
      ++ concat (block X <$> ((λ kv, (kv.1, dryRunEntries (E := X) kv.1 kv.2))
                              <$> range_topics (Externals := X) pm))
      ++ ["fetched metrics"] ++ brokerLines X (range_brokers (Externals := X) bm))
    as Hlog.
  { intros X bm pm w0. unfold processData, processSwitch.
    destruct (json_Marshal_tps pm); [done|].
    destruct (json_Marshal_bsf bm); [done|].
    intros _. rewrite foldl_doLog. simpl. f_equal. apply dryRun_lines. }
  assert (∀ (X : Externals) (pm : topicPartitionSize) topic entries,
    (topic, entries) ∈ (λ kv, (kv.1, dryRunEntries (E := X) kv.1 kv.2))
                       <$> range_topics (Externals := X) pm →
    ExternalsLaws X →
    ∃ m, pm !! topic = Some m ∧ entries = dryRunEntries (E := X) topic m) as Hin.
  { intros X pm topic entries ([t m] & [= -> ->] & Hm)%list_elem_of_fmap HX.
    exists m. split; [|done].
    rewrite range_topics_perm in Hm. by apply elem_of_map_to_list in Hm. }
  assert (∀ (X : Externals) (pm : topicPartitionSize), ExternalsLaws X →
    ((λ kv, (kv.1, dryRunEntries (E := X) kv.1 kv.2))
     <$> range_topics (Externals := X) pm).*1 ≡ₚ (map_to_list pm).*1) as Hkeys.
  { intros X pm HX. rewrite <- list_fmap_compose.
    rewrite <- (range_topics_perm pm). apply reflexive_eq.
    apply list_fmap_ext. by intros i [t m] _. }
  subst out. split; [|split; [|split]].
  - unfold processData, processSwitch.
    destruct (json_Marshal_tps _); [done|].
    destruct (json_Marshal_bsf _); [done|]. by rewrite foldl_doLog.
  - unfold processData, processSwitch.
    destruct (json_Marshal_tps _); [done|].
    destruct (json_Marshal_bsf _); [done|]. by rewrite foldl_doLog.
  - unfold processData, processSwitch.
    destruct (json_Marshal_tps _); [done|].
    destruct (json_Marshal_bsf _); [done|]. simpl. by intros [].
  - exists ((λ kv, (kv.1, dryRunEntries (E := E) kv.1 kv.2))
            <$> range_topics (Externals := E) partitionMapping),
           (range_brokers (Externals := E) brokerMetrics).
    split; [apply Hlog|]. split; [by apply Hkeys|].
    split; [apply range_brokers_perm|]. split.
    + intros topic entries Hte.
      destruct (Hin E _ _ _ Hte HE) as (m & Hm & ->).
      exists m. split; [done|]. split.
      * apply (dryRunEntries_sorted E).
      * by apply dryRunEntries_perm.
    + intros v v' pm' brokerMetrics' w' Hperm [= Hpm] [= Hpm'] out'. subst out'.
      exists ((λ kv, (kv.1, dryRunEntries (E := E') kv.1 kv.2))
              <$> range_topics (Externals := E') pm'),
             (range_brokers (Externals := E') brokerMetrics').
      split; [apply Hlog|]. split.
      * rewrite !Hkeys by done. rewrite <- Hpm, <- Hpm'. symmetry.
        by apply partitionFold_perm_topics.
      * intros topic entries entries' Hte Hte'.
        destruct (Hin E _ _ _ Hte HE) as (m & Hm & ->).
        destruct (Hin E' _ _ _ Hte' HE') as (m' & Hm' & ->).
        destruct (dryRunEntries_sorted E topic m) as [Hs1 Hp1].
        destruct (dryRunEntries_sorted E' topic m') as [Hs2 Hp2].
        split; [done|].
        apply (Sorted_unique Z.le); [done..|].
        rewrite Hp1, Hp2. apply fmap_Permutation.
        apply (partitionFold_perm_dom v v' topic);
          [done|by rewrite Hpm|by rewrite Hpm'].
Qed.

End DryRun.

(** * The claims on concrete stores *)

(** C2, as stated, fails: the directory exists with an ACL list that has no
    open entry, the run fails with the wrong-ACL error, and yet the
    partitionmeta node, present before the run, is gone after it. *)
Lemma C2_counterexample_partitionmeta_deleted :
  memzk.GetACL "/topicmappr" storeNoAdmin = (Ok [aclNoAdmin], storeNoAdmin)
  ∧ (openACL ∉ [aclNoAdmin])
  ∧ storeNoAdmin !! "/topicmappr/partitionmeta"
    = Some (memzk.mkZnode (list_byte_of_string "old") [openACL] 0)
  ∧ (processData false "" brokers1 partitions1 (mkWorld storeNoAdmin [] [])).1
    = Some (ErrWrongACL "/topicmappr" [aclNoAdmin])
  ∧ zkConn (processData false "" brokers1 partitions1
              (mkWorld storeNoAdmin [] [])).2
    !! "/topicmappr/partitionmeta" = None
  ∧ zkConn (processData false "" brokers1 partitions1
              (mkWorld storeNoAdmin [] [])).2
    !! "/topicmappr/brokermetrics"
    = storeNoAdmin !! "/topicmappr/brokermetrics".
Proof.
  split; [vm_compute; reflexivity|]. split.
  { intros Hin%list_elem_of_singleton. discriminate. }
  repeat split; vm_compute; reflexivity.
Qed.

Lemma C2_witness :
  processData false "" brokers1 partitions1 (mkWorld storeNoAdmin [] [])
  = (Some (ErrWrongACL (zkDir "") [aclNoAdmin]),
     doClose (doGetACL (zkDir "")
       (doDelete (zkPath "" "partitionmeta") 0 (mkWorld storeNoAdmin [] [])).2).2)
  ∧ calls (doClose (doGetACL (zkDir "")
       (doDelete (zkPath "" "partitionmeta") 0 (mkWorld storeNoAdmin [] [])).2).2)
    = calls (mkWorld storeNoAdmin [] [])
      ++ [ zk.CallDelete (zkPath "" "partitionmeta") 0;
           zk.CallGetACL (zkDir "");
           zk.CallClose ]
  ∧ Forall (λ c, callPath c ≠ Some (zkPath "" "brokermetrics"))
      [ zk.CallDelete (zkPath "" "partitionmeta") 0;
        zk.CallGetACL (zkDir "");
        zk.CallClose ]
  ∧ logged (doClose (doGetACL (zkDir "")
       (doDelete (zkPath "" "partitionmeta") 0 (mkWorld storeNoAdmin [] [])).2).2)
    = logged (mkWorld storeNoAdmin [] []).
Proof.
  eapply (C2_wrong_acl_aborts_after_delete "" brokers1 partitions1
            (mkWorld storeNoAdmin [] [])).
  - reflexivity.
  - reflexivity.
  - left. vm_compute. reflexivity.
  - vm_compute. reflexivity.
  - intros Hin%list_elem_of_singleton. discriminate.
Defined.

Lemma C4_witness :
  writeToZookeeper "" "partitionmeta" (list_byte_of_string "t1")
    (mkWorld storeNoAdmin [] [])
  = (Some (ErrWrongACL "/topicmappr" [aclNoAdmin]),
     mkWorld (delete "/topicmappr/partitionmeta" storeNoAdmin)
       [ zk.CallDelete "/topicmappr/partitionmeta" 0;
         zk.CallGetACL "/topicmappr" ] []).
Proof.
  pose proof (C4_directory_acl_protocol "" "partitionmeta"
                (list_byte_of_string "t1") (mkWorld storeNoAdmin [] [])) as H.
  simpl in H. destruct H as (_ & H & _).
  specialize (H (or_introl eq_refl)).
  assert ((doGetACL (zkDir "")
             (doDelete (zkPath "" "partitionmeta") 0
                (mkWorld storeNoAdmin [] [])).2).1 = Ok [aclNoAdmin]) as Hget
    by (vm_compute; reflexivity).
  rewrite Hget in H. destruct H as [_ H].
  destruct H as [H _].
  { intros Hin%list_elem_of_singleton. discriminate. }
  rewrite H. vm_compute. reflexivity.
Defined.

Lemma C9_witness :
  calls (processData true "" brokers1 partitions1 (mkWorld storeNoAdmin [] [])).2
  = [zk.CallClose]
  ∧ ∃ (topics : list (string * list el.t))
      (brokers : list (string * brokerStorageFreeValue)),
      logged (processData true "" brokers1 partitions1
                (mkWorld storeNoAdmin [] [])).2
      = ["partition mapping"]
        ++ concat ((λ te : string * list el.t,
                      ("topic: " +:+ te.1)
                      :: ((λ e, "partition " +:+ pad_right 4 (pretty (el.Partition e))
                                +:+ " size: " +:+ humanize_Bytes (el.Size e))
                          <$> te.2)) <$> topics)
        ++ ["fetched metrics"]
        ++ ((λ kv, "broker #" +:+ pad_right 4 kv.1 +:+ " "
                   +:+ pad_left 15 "storage free" +:+ ": "
                   +:+ humanize_Bytes (uint64_of_float64 (StorageFree kv.2)))
            <$> brokers)
      ∧ ∀ topic entries, (topic, entries) ∈ topics →
          Sorted Z.le (el.Partition <$> entries).
Proof.
  destruct (C9_dry_run_no_store_call_sorted_report refExternals refExternals
              _ _ "" brokers1 partitions1 (mkWorld storeNoAdmin [] []))
    as (Hcalls & _ & _ & topics & brokers & Hlog & _ & _ & Hsorted & _).
  split; [exact Hcalls|]. exists topics, brokers. split.
  - apply Hlog. vm_compute. reflexivity.
  - intros topic entries Hin.
    destruct (Hsorted topic entries Hin) as (m & _ & Hs & _). exact Hs.
Defined.

(** The scenario of an absent directory: the directory is created with the
    open ACL, then the two data nodes, partitionmeta first. *)
Example absent_directory_scenario :
  calls (processData false "" brokers1 partitions1 (mkWorld (∅ : memzk.store) [] [])).2
  = [ zk.CallDelete "/topicmappr/partitionmeta" 0;
      zk.CallGetACL "/topicmappr";
      zk.CallCreate "/topicmappr" [] 0 [openACL];
      zk.CallCreate "/topicmappr/partitionmeta" (list_byte_of_string "t1") 0 [openACL];
      zk.CallDelete "/topicmappr/brokermetrics" 0;
      zk.CallGetACL "/topicmappr";
      zk.CallCreate "/topicmappr/brokermetrics" (list_byte_of_string "1001") 0 [openACL];
      zk.CallClose ].
Proof. vm_compute. reflexivity. Qed.

(** Under a chroot whose node is missing, the directory cannot be created:
    the partitionmeta write fails, and that is the end of the run. *)
Lemma C5_witness :
  processData false "/my-chroot" brokers1 partitions1 (mkWorld (∅ : memzk.store) [] [])
  = (Some (ErrCreateNode "/my-chroot/topicmappr" zk.ErrNoNode),
     mkWorld (∅ : memzk.store)
       [ zk.CallDelete "/my-chroot/topicmappr/partitionmeta" 0;
         zk.CallGetACL "/my-chroot/topicmappr";
         zk.CallCreate "/my-chroot/topicmappr" [] 0 [openACL];
         zk.CallClose ] []).
Proof.
  pose proof (C5_partitionmeta_first_fail_fast "/my-chroot" brokers1 partitions1
                (mkWorld (∅ : memzk.store) [] [])) as H.
  cbv zeta in H. change (json_Marshal_tps partitions1) with
    (Ok (A := list Byte.byte) (E := string)
        (list_byte_of_string (String.concat "," (map_to_list partitions1).*1))) in H.
  change (json_Marshal_bsf brokers1) with
    (Ok (A := list Byte.byte) (E := string)
        (list_byte_of_string (String.concat "," (map_to_list brokers1).*1))) in H.
  cbv iota beta in H.
  destruct H as (c1 & c2 & _ & _ & _ & _ & Hfail & _).
  destruct (Hfail (ErrCreateNode "/my-chroot/topicmappr" zk.ErrNoNode)) as [Hout _].
  { vm_compute. reflexivity. }
  rewrite Hout. vm_compute. reflexivity.
Defined.

(** * Further properties of the mappers *)

(** Folding over more samples overrides what was there, key by key. *)
Lemma brokerFold_union (l : string) (v : list Sample) (m : brokerStorageFree) :
  foldl (brokerStep l) m v = foldl (brokerStep l) ∅ v ∪ m.
Proof.
  induction v as [|x v IH] using rev_ind.
  - simpl. by rewrite (left_id_L ∅ (∪)).
  - rewrite !foldl_snoc, IH. unfold brokerStep. by rewrite insert_union_l.
Qed.

(** X1: a result made of two batches of samples gives the map of the second
    batch laid over the map of the first: a broker id present in both takes
    its value from the second. *)
Theorem X1_getBrokerFreeSpace_append (l : string) (v1 v2 : list Sample) :
  ∃ m1 m2,
    getBrokerFreeSpace l (Ok (ValVector v1)) = Return m1
    ∧ getBrokerFreeSpace l (Ok (ValVector v2)) = Return m2
    ∧ getBrokerFreeSpace l (Ok (ValVector (v1 ++ v2))) = Return (m2 ∪ m1).
Proof.
  eexists _, _. split; [reflexivity|]. split; [reflexivity|].
  simpl. by rewrite foldl_app, brokerFold_union.
Qed.

Lemma partitionFold_over (v : list Sample) (m : topicPartitionSize) (t p : string) :
  lookup2 (foldl partitionStep m v) t p
  = match lookup2 (foldl partitionStep ∅ v) t p with
    | Some x => Some x
    | None => lookup2 m t p
    end.
Proof.
  induction v as [|x v IH] using rev_ind.
  - simpl. unfold lookup2 at 2. by rewrite lookup_empty.
  - rewrite !foldl_snoc, !partitionStep_lookup2.
    destruct (decide _); [done|exact IH].
Qed.

(** X2: the same for partition sizes, cell by cell: a (topic, partition)
    cell of the second batch wins, a cell only the first batch has stays. *)
Theorem X2_getPartitionSizes_append (v1 v2 : list Sample) :
  ∃ m1 m2 m,
    getPartitionSizes (Ok (ValVector v1)) = Return m1
    ∧ getPartitionSizes (Ok (ValVector v2)) = Return m2
    ∧ getPartitionSizes (Ok (ValVector (v1 ++ v2))) = Return m
    ∧ ∀ t p, lookup2 m t p = match lookup2 m2 t p with
                             | Some x => Some x
                             | None => lookup2 m1 t p
                             end.
Proof.
  eexists _, _, _. split; [reflexivity|]. split; [reflexivity|].
  split; [reflexivity|]. intros t p.
  rewrite foldl_app. apply partitionFold_over.
Qed.

(** Among samples with pairwise different keys, a key names its sample. *)
Lemma NoDup_fmap_elem_eq {A K} (key : A → K) (v : list A) (x y : A) :
  NoDup (key <$> v) → x ∈ v → y ∈ v → key x = key y → x = y.
Proof.
  induction v as [|a v IH]; intros Hnd Hx Hy Hk; [by apply elem_of_nil in Hx|].
  rewrite fmap_cons in Hnd. apply NoDup_cons in Hnd as [Ha Hnd].
  apply elem_of_cons in Hx as [->|Hx]; apply elem_of_cons in Hy as [->|Hy].
  - done.
  - destruct Ha. rewrite Hk. by apply list_elem_of_fmap_2.
  - destruct Ha. rewrite <- Hk. by apply list_elem_of_fmap_2.
  - by apply IH.
Qed.

(** With pairwise different broker ids, each sample keeps its own entry. *)
Lemma brokerFold_NoDup (l : string) (v : list Sample) (s : Sample) :
  NoDup ((λ x, label x l) <$> v) → s ∈ v →
  foldl (brokerStep l) ∅ v !! label s l = Some {| StorageFree := Value s |}.
Proof.
  intros Hnd Hs.
  destruct (last_with_key (λ x, label x l) (label s l) v)
    as (pre & s' & post & Hv & Hk & Hpost); [by eauto|].
  assert (s' = s) as ->.
  { apply (NoDup_fmap_elem_eq (λ x, label x l) v); [done| |done..].
    rewrite Hv. apply elem_of_app. right. left. }
  rewrite Hv. by apply brokerFold_last.
Qed.

(** X3: when no two samples share a broker id, the order of the samples
    does not matter: every reordering of the vector gives the same map. *)
Theorem X3_getBrokerFreeSpace_order_irrelevant (l : string) (v v' : list Sample) :
  NoDup ((λ s, label s l) <$> v) →
  v ≡ₚ v' →
  getBrokerFreeSpace l (Ok (ValVector v))
  = getBrokerFreeSpace l (Ok (ValVector v')).
Proof.
  intros Hnd Hperm. simpl. f_equal. apply map_eq. intros k.
  assert (NoDup ((λ s, label s l) <$> v')) as Hnd' by by rewrite <- Hperm.
  destruct (decide (Exists (λ s, label s l = k) v)) as [He|Hn].
  - apply Exists_exists in He as (s & Hs & <-).
    rewrite (brokerFold_NoDup l v s), (brokerFold_NoDup l v' s); try done.
    by rewrite <- Hperm.
  - apply not_Exists_Forall in Hn; [|solve_decision].
    rewrite !brokerFold_other; [done| |exact Hn].
    by rewrite <- Hperm.
Qed.

Lemma X3_witness :
  getBrokerFreeSpace "broker_id" (Ok (ValVector
    [ mkSample {[ "broker_id" := "1" ]} 10%float 0;
      mkSample {[ "broker_id" := "2" ]} 20%float 0 ]))
  = getBrokerFreeSpace "broker_id" (Ok (ValVector
    [ mkSample {[ "broker_id" := "2" ]} 20%float 0;
      mkSample {[ "broker_id" := "1" ]} 10%float 0 ])).
Proof.
  apply X3_getBrokerFreeSpace_order_irrelevant.
  - apply (bool_decide_unpack _). vm_compute. reflexivity.
  - apply perm_swap.
Defined.

(** Two two-level maps without empty topics are equal when their cells are. *)
Lemma two_level_map_eq (m1 m2 : topicPartitionSize) :
  (∀ t inner, m1 !! t = Some inner → inner ≠ ∅) →
  (∀ t inner, m2 !! t = Some inner → inner ≠ ∅) →
  (∀ t p, lookup2 m1 t p = lookup2 m2 t p) →
  m1 = m2.
Proof.
  intros H1 H2 Hcells. apply map_eq. intros t.
  specialize (H1 t). specialize (H2 t).
  assert (∀ p, lookup2 m1 t p = lookup2 m2 t p) as Ht by (intros p; apply Hcells).
  unfold lookup2 in Ht.
  destruct (m1 !! t) as [i1|], (m2 !! t) as [i2|]; simpl in Ht.
  - f_equal. by apply map_eq.
  - destruct (map_choose i1) as (p & x & Hp); [by apply H1|].
    specialize (Ht p). congruence.
  - destruct (map_choose i2) as (p & x & Hp); [by apply H2|].
    specialize (Ht p). congruence.
  - done.
Qed.

Lemma partitionFold_NoDup (v : list Sample) (s : Sample) :
  NoDup (pairOf <$> v) → s ∈ v →
  lookup2 (foldl partitionStep ∅ v) (label s "topic") (label s "partition")
  = Some {| Size := Value s |}.
Proof.
  intros Hnd Hs.
  destruct (last_with_key pairOf (pairOf s) v)
    as (pre & s' & post & Hv & Hk & Hpost); [by eauto|].
  assert (s' = s) as ->.
  { apply (NoDup_fmap_elem_eq pairOf v); [done| |done..].
    rewrite Hv. apply elem_of_app. right. left. }
  rewrite Hv. by apply partitionFold_last.
Qed.

(** X4: when no two samples share a (topic, partition) pair, every
    reordering of the vector gives the same two-level map. *)
Theorem X4_getPartitionSizes_order_irrelevant (v v' : list Sample) :
  NoDup (pairOf <$> v) →
  v ≡ₚ v' →
  getPartitionSizes (Ok (ValVector v)) = getPartitionSizes (Ok (ValVector v')).
Proof.
  intros Hnd Hperm. simpl. f_equal.
  assert (NoDup (pairOf <$> v')) as Hnd' by by rewrite <- Hperm.
  apply two_level_map_eq.
  - apply partitionFold_inner_nonempty. intros ? ?. by rewrite lookup_empty.
  - apply partitionFold_inner_nonempty. intros ? ?. by rewrite lookup_empty.
  - intros t p.
    destruct (decide (Exists (λ s, pairOf s = (t, p)) v)) as [He|Hn].
    + apply Exists_exists in He as (s & Hs & [= <- <-]).
      rewrite (partitionFold_NoDup v s), (partitionFold_NoDup v' s); try done.
      by rewrite <- Hperm.
    + apply not_Exists_Forall in Hn; [|solve_decision].
      rewrite !partitionFold_other; [done| |exact Hn].
      by rewrite <- Hperm.
Qed.

Lemma X4_witness :
  getPartitionSizes (Ok (ValVector
    [ mkSample {[ "topic" := "t1"; "partition" := "0" ]} 100%float 0;
      mkSample {[ "topic" := "t1"; "partition" := "1" ]} 200%float 0 ]))
  = getPartitionSizes (Ok (ValVector
    [ mkSample {[ "topic" := "t1"; "partition" := "1" ]} 200%float 0;
      mkSample {[ "topic" := "t1"; "partition" := "0" ]} 100%float 0 ])).
Proof.
  apply X4_getPartitionSizes_order_irrelevant.
  - apply (bool_decide_unpack _). vm_compute. reflexivity.
  - apply perm_swap.
Defined.

(** * Further properties of the address split and the paths *)

Lemma string_app_nil_r (s : string) : s +:+ "" = s.
Proof.
  induction s as [|a s IH]; [done|].
  change (String a (s +:+ "") = String a s). by f_equal.
Qed.

(** Cutting a string at the index of [c] loses nothing, leaves no [c] on
    the left and puts [c] first on the right. *)
Lemma IndexByte_cut (s : string) (c : ascii) :
  0 ≤ IndexByte s c →
  slice_to (Z.to_nat (IndexByte s c)) s +:+ slice_from (Z.to_nat (IndexByte s c)) s = s
  ∧ IndexByte (slice_to (Z.to_nat (IndexByte s c)) s) c = -1
  ∧ ∃ rest, slice_from (Z.to_nat (IndexByte s c)) s = String c rest.
Proof.
  induction s as [|a s IH]; simpl; [lia|].
  destruct (decide (a = c)) as [->|Hne]; simpl.
  - intros _. split; [done|]. split; [done|]. by eexists.
  - destruct (Z.ltb_spec (IndexByte s c) 0) as [Hlt|Hge]; [lia|]. intros _.
    destruct (IH Hge) as (Hcat & Hleft & rest & Hright).
    replace (Z.to_nat (IndexByte s c + 1)) with (S (Z.to_nat (IndexByte s c))) by lia.
    simpl. rewrite decide_False, Hleft by done. simpl.
    split; [|split; [done|by exists rest]].
    change (String a (slice_to (Z.to_nat (IndexByte s c)) s
                      +:+ slice_from (Z.to_nat (IndexByte s c)) s) = String a s).
    by f_equal.
Qed.

(** X5: the split of [--zk-addr] loses nothing: host and chroot put
    together give the address back. The host has no '/' in it, and the
    chroot is empty exactly when the address has no '/', and starts with
    '/' otherwise. *)
Theorem X5_splitZkAddr_partition (flZkAddr : string) :
  (splitZkAddr flZkAddr).1 +:+ (splitZkAddr flZkAddr).2 = flZkAddr
  ∧ (∀ a b, (splitZkAddr flZkAddr).1 ≠ a +:+ "/" +:+ b)
  ∧ ((splitZkAddr flZkAddr).2 = "" ↔ ∀ a b, flZkAddr ≠ a +:+ "/" +:+ b)
  ∧ ((splitZkAddr flZkAddr).2 = ""
     ∨ ∃ rest, (splitZkAddr flZkAddr).2 = "/" +:+ rest).
Proof.
  unfold splitZkAddr.
  destruct (Z.leb_spec 0 (IndexByte flZkAddr "/")) as [Hge|Hlt]; simpl.
  - destruct (IndexByte_cut flZkAddr "/" Hge) as (Hcat & Hleft & rest & Hright).
    split; [done|]. split; [by apply IndexByte_absent_inv|]. split.
    + rewrite Hright. split; [done|]. intros Hno.
      apply IndexByte_absent in Hno. lia.
    + right. by exists rest.
  - assert (IndexByte flZkAddr "/" = -1) as Hno.
    { pose proof (IndexByte_lower_bound flZkAddr "/"). lia. }
    split; [apply string_app_nil_r|]. split; [by apply IndexByte_absent_inv|].
    split; [|by left]. split; [|done]. intros _. by apply IndexByte_absent_inv.
Qed.

(** X6: whatever the address, the directory is an absolute path that ends
    in "/topicmappr"; a data node is never the directory itself, and two
    node names never share a data node. *)
Theorem X6_paths_absolute_and_apart (flZkAddr name1 name2 : string) :
  (∃ rest, zkDir (splitZkAddr flZkAddr).2 = "/" +:+ rest)
  ∧ (∃ pre, zkDir (splitZkAddr flZkAddr).2 = pre +:+ "/topicmappr")
  ∧ zkPath (splitZkAddr flZkAddr).2 name1 ≠ zkDir (splitZkAddr flZkAddr).2
  ∧ (zkPath (splitZkAddr flZkAddr).2 name1 = zkPath (splitZkAddr flZkAddr).2 name2
     → name1 = name2).
Proof.
  split; [|split; [|split; [apply zkPath_ne_dir|apply zkPath_inj]]].
  - unfold splitZkAddr.
    destruct (Z.leb_spec 0 (IndexByte flZkAddr "/")) as [Hge|Hlt]; simpl.
    + destruct (IndexByte_cut flZkAddr "/" Hge) as (_ & _ & rest & ->).
      unfold zkDir. rewrite decide_True by done. by eexists.
    + by exists "topicmappr".
  - unfold zkDir. destruct (decide _); [by eexists|by exists ""].
Qed.

(** * Further properties of the publisher *)

Section PublisherMore.
Context {St : Type} {conn : zk.Conn St} {E : Externals}.

(** X7: the only five things [writeToZookeeper] can do. It stops after the
    delete, or after the getACL, or after a failed creation of the
    directory, each time with the matching error and nothing logged; or it
    goes as far as the creation of the data node, with or without creating
    the directory first, having logged "writing data to" the node just
    before. So it never makes more than four calls, never closes the
    connection, deletes nothing but the data node, and creates nothing but
    the directory (empty) and the data node (with the payload), both with
    the open ACL. *)
Theorem X7_writeToZookeeper_call_shapes (zkChroot path : string)
    (data : list Byte.byte) (w : world St) :
  let r := writeToZookeeper zkChroot path data w in
  let dir := zkDir zkChroot in
  let node := zkPath zkChroot path in
  let D := zk.CallDelete node 0 in
  let G := zk.CallGetACL dir in
  let Cd := zk.CallCreate dir [] 0 [openACL] in
  let Cn := zk.CallCreate node data 0 [openACL] in
  (calls r.2 = calls w ++ [D] ∧ logged r.2 = logged w
   ∧ ∃ e, r.1 = Some (ErrDeletePath node e) ∧ e ≠ zk.ErrNoNode)
  ∨ (calls r.2 = calls w ++ [D; G] ∧ logged r.2 = logged w
     ∧ ((∃ e, r.1 = Some (ErrGetACL dir e) ∧ e ≠ zk.ErrNoNode)
        ∨ (∃ acl, r.1 = Some (ErrWrongACL dir acl) ∧ openACL ∉ acl)))
  ∨ (calls r.2 = calls w ++ [D; G; Cd] ∧ logged r.2 = logged w
     ∧ ∃ e, r.1 = Some (ErrCreateNode dir e) ∧ e ≠ zk.ErrNodeExists)
  ∨ ((calls r.2 = calls w ++ [D; G; Cn] ∨ calls r.2 = calls w ++ [D; G; Cd; Cn])
     ∧ logged r.2 = logged w ++ ["writing data to " +:+ node]
     ∧ (r.1 = None ∨ ∃ e, r.1 = Some (ErrCreatePath node e))).
Proof.
  intros r dir node D G Cd Cn. subst r dir node D G Cd Cn.
  unfold writeToZookeeper, ensureDir, createDataNode.
  fold (zkPath zkChroot path).
  change (zk.WorldACL zk.PermAll) with [openACL]. change wacl with openACL.
  unfold doDelete. destruct (zk.Delete _ _ _) as [err1 st1]. simpl.
  destruct (fatalUnless zk.ErrNoNode err1) as [e|] eqn:Hdel; simpl.
  { left. repeat split; try done. exists e. split; [done|].
    unfold fatalUnless in Hdel. destruct err1 as [e1|]; [|done].
    destruct (decide (e1 = zk.ErrNoNode)); congruence. }
  right. unfold doGetACL. destruct (zk.GetACL _ _) as [[e|acl] st2]; simpl.
  - destruct (decide (e = zk.ErrNoNode)) as [->|Hne].
    + unfold doCreate, doLog. simpl.
      destruct (zk.Create (zkDir zkChroot) [] 0 [openACL] st2) as [err3 st3]. simpl.
      destruct (fatalUnless zk.ErrNodeExists err3) as [e3|] eqn:Hmk; simpl.
      * right. left. rewrite <- !app_assoc. repeat split; try done.
        exists e3. split; [done|].
        unfold fatalUnless in Hmk. destruct err3 as [e'|]; [|done].
        destruct (decide (e' = zk.ErrNodeExists)); congruence.
      * right. right.
        destruct (zk.Create (zkPath zkChroot path) data 0 [openACL] st3)
          as [[e4|] st4]; simpl;
          rewrite <- !app_assoc; (split; [by right|]); (split; [done|]);
          [right; by eexists|by left].
    + left. simpl. rewrite <- !app_assoc. repeat split; try done.
      left. by exists e.
  - destruct (waclExists openACL acl) eqn:Hw; simpl.
    + right. right. unfold doCreate, doLog. simpl.
      destruct (zk.Create (zkPath zkChroot path) data 0 [openACL] st2)
        as [[e4|] st4]; simpl;
        rewrite <- !app_assoc; (split; [by left|]); (split; [done|]);
        [right; by eexists|by left].
    + left. rewrite <- !app_assoc. repeat split; try done.
      right. exists acl. split; [done|].
      intros Hin%waclExists_elem_of. congruence.
Qed.

(** Run [writeToZookeeper] symbolically: name the answer of every call. *)
Ltac zk_run :=
  unfold writeToZookeeper, ensureDir, createDataNode,
    doDelete, doGetACL, doCreate, doLog;
  change (zk.WorldACL zk.PermAll) with [openACL]; change wacl with openACL;
  simpl;
  repeat (match goal with
          | |- context [zk.Delete ?a ?b ?c] =>
              destruct (zk.Delete a b c) as [? ?]
          | |- context [zk.GetACL ?a ?b] =>
              destruct (zk.GetACL a b) as [[?|?] ?]
          | |- context [zk.Create ?a ?b ?c ?d ?e] =>
              destruct (zk.Create a b c d e) as [[?|] ?]
          | |- context [fatalUnless ?a ?b] => destruct (fatalUnless a b)
          | |- context [decide ?P] => destruct (decide P)
          | |- context [waclExists ?a ?b] => destruct (waclExists a b)
          end; simpl).

(** A write that returns nil has created the data node, and logged so. *)
Lemma writeToZookeeper_success (zkChroot path : string)
    (data : list Byte.byte) (w : world St) :
  (writeToZookeeper zkChroot path data w).1 = None →
  (calls (writeToZookeeper zkChroot path data w).2
   = calls w ++ [ zk.CallDelete (zkPath zkChroot path) 0;
                  zk.CallGetACL (zkDir zkChroot);
                  zk.CallCreate (zkPath zkChroot path) data 0 [openACL] ]
   ∨ calls (writeToZookeeper zkChroot path data w).2
     = calls w ++ [ zk.CallDelete (zkPath zkChroot path) 0;
                    zk.CallGetACL (zkDir zkChroot);
                    zk.CallCreate (zkDir zkChroot) [] 0 [openACL];
                    zk.CallCreate (zkPath zkChroot path) data 0 [openACL] ])
  ∧ logged (writeToZookeeper zkChroot path data w).2
    = logged w ++ ["writing data to " +:+ zkPath zkChroot path].
Proof.
  unfold zkPath. zk_run; intros H; try discriminate H; clear H;
    rewrite <- !app_assoc; simpl; (split; [|reflexivity]);
    first [left; reflexivity|right; reflexivity].
Qed.

(** No error of a write is a serialization error. *)
Lemma writeToZookeeper_not_marshal (zkChroot path : string)
    (data : list Byte.byte) (w : world St) (msg : string) :
  (writeToZookeeper zkChroot path data w).1 ≠ Some (ErrMarshal msg).
Proof. zk_run; discriminate. Qed.

(** X8: a live run that returns nil has written both nodes, partitionmeta
    first. Each write is delete, getACL, at most the creation of the
    directory, and the creation of the node; the partitionmeta node got
    the serialized partition map and the brokermetrics node the serialized
    broker map, each with the open ACL; the two "writing data to" lines
    were logged in that order, and the connection was closed last. *)
Theorem X8_live_success_writes_both_payloads (zkChroot : string)
    (brokerMetrics : brokerStorageFree) (partitionMapping : topicPartitionSize)
    (w : world St) :
  let out := processData false zkChroot brokerMetrics partitionMapping w in
  let dir := zkDir zkChroot in
  let pmeta := zkPath zkChroot "partitionmeta" in
  let bmetrics := zkPath zkChroot "brokermetrics" in
  out.1 = None →
  ∃ d1 d2 cs1 cs2,
    json_Marshal_tps partitionMapping = Ok d1
    ∧ json_Marshal_bsf brokerMetrics = Ok d2
    ∧ calls out.2 = calls w ++ cs1 ++ cs2 ++ [zk.CallClose]
    ∧ (cs1 = [ zk.CallDelete pmeta 0; zk.CallGetACL dir;
               zk.CallCreate pmeta d1 0 [openACL] ]
       ∨ cs1 = [ zk.CallDelete pmeta 0; zk.CallGetACL dir;
                 zk.CallCreate dir [] 0 [openACL];
                 zk.CallCreate pmeta d1 0 [openACL] ])
    ∧ (cs2 = [ zk.CallDelete bmetrics 0; zk.CallGetACL dir;
               zk.CallCreate bmetrics d2 0 [openACL] ]
       ∨ cs2 = [ zk.CallDelete bmetrics 0; zk.CallGetACL dir;
                 zk.CallCreate dir [] 0 [openACL];
                 zk.CallCreate bmetrics d2 0 [openACL] ])
    ∧ logged out.2 = logged w ++ [ "writing data to " +:+ pmeta;
                                   "writing data to " +:+ bmetrics ].
Proof.
  intros out dir pmeta bmetrics. subst out dir pmeta bmetrics.
  unfold processData.
  destruct (json_Marshal_tps partitionMapping) as [?|d1]; [done|].
  destruct (json_Marshal_bsf brokerMetrics) as [?|d2]; [done|].
  unfold processSwitch.
  pose proof (writeToZookeeper_success zkChroot "partitionmeta" d1 w) as H1.
  destruct (writeToZookeeper zkChroot "partitionmeta" d1 w) as [[e1|] w1]; [done|].
  destruct (H1 eq_refl) as [Hc1 Hl1]. simpl in Hc1, Hl1.
  pose proof (writeToZookeeper_success zkChroot "brokermetrics" d2 w1) as H2.
  destruct (writeToZookeeper zkChroot "brokermetrics" d2 w1) as [[e2|] w2]; [done|].
  destruct (H2 eq_refl) as [Hc2 Hl2]. simpl in Hc2, Hl2. simpl. intros _.
  exists d1, d2.
  destruct Hc1 as [Hc1|Hc1], Hc2 as [Hc2|Hc2]; rewrite Hc1 in Hc2;
    rewrite Hc2, Hl2, Hl1, <- !app_assoc; simpl;
    [ exists [ zk.CallDelete (zkPath zkChroot "partitionmeta") 0;
               zk.CallGetACL (zkDir zkChroot);
               zk.CallCreate (zkPath zkChroot "partitionmeta") d1 0 [openACL] ],
             [ zk.CallDelete (zkPath zkChroot "brokermetrics") 0;
               zk.CallGetACL (zkDir zkChroot);
               zk.CallCreate (zkPath zkChroot "brokermetrics") d2 0 [openACL] ]
    | exists [ zk.CallDelete (zkPath zkChroot "partitionmeta") 0;
               zk.CallGetACL (zkDir zkChroot);
               zk.CallCreate (zkPath zkChroot "partitionmeta") d1 0 [openACL] ],
             [ zk.CallDelete (zkPath zkChroot "brokermetrics") 0;
               zk.CallGetACL (zkDir zkChroot);
               zk.CallCreate (zkDir zkChroot) [] 0 [openACL];
               zk.CallCreate (zkPath zkChroot "brokermetrics") d2 0 [openACL] ]
    | exists [ zk.CallDelete (zkPath zkChroot "partitionmeta") 0;
               zk.CallGetACL (zkDir zkChroot);
               zk.CallCreate (zkDir zkChroot) [] 0 [openACL];
               zk.CallCreate (zkPath zkChroot "partitionmeta") d1 0 [openACL] ],
             [ zk.CallDelete (zkPath zkChroot "brokermetrics") 0;
               zk.CallGetACL (zkDir zkChroot);
               zk.CallCreate (zkPath zkChroot "brokermetrics") d2 0 [openACL] ]
    | exists [ zk.CallDelete (zkPath zkChroot "partitionmeta") 0;
               zk.CallGetACL (zkDir zkChroot);
               zk.CallCreate (zkDir zkChroot) [] 0 [openACL];
               zk.CallCreate (zkPath zkChroot "partitionmeta") d1 0 [openACL] ],
             [ zk.CallDelete (zkPath zkChroot "brokermetrics") 0;
               zk.CallGetACL (zkDir zkChroot);
               zk.CallCreate (zkDir zkChroot) [] 0 [openACL];
               zk.CallCreate (zkPath zkChroot "brokermetrics") d2 0 [openACL] ] ];
    (split; [reflexivity|]); (split; [reflexivity|]); (split; [reflexivity|]);
    (split; [first [left; reflexivity|right; reflexivity]|]);
    (split; [first [left; reflexivity|right; reflexivity]|reflexivity]).
Qed.

(** X9: in every run, dry or live, failed or not, [processData] closes the
    connection exactly once, and that is its last call. *)
Theorem X9_connection_closed_once_and_last (flDryRun : bool)
    (zkChroot : string) (brokerMetrics : brokerStorageFree)
    (partitionMapping : topicPartitionSize) (w : world St) :
  ∃ cs,
    calls (processData flDryRun zkChroot brokerMetrics partitionMapping w).2
    = calls w ++ cs ++ [zk.CallClose]
    ∧ zk.CallClose ∉ cs.
Proof.
  assert (∀ (cs : list zk.call) (P : zk.call → Prop),
    (∀ c, P c → is_Some (callPath c)) → Forall P cs → zk.CallClose ∉ cs) as Hno.
  { intros cs P HP Hcs Hin. rewrite Forall_forall in Hcs.
    destruct (HP _ (Hcs _ Hin)) as [? [=]]. }
  unfold processData.
  destruct (json_Marshal_tps partitionMapping) as [?|d1];
    [exists []; split; [done|by intros ?%elem_of_nil]|].
  destruct (json_Marshal_bsf brokerMetrics) as [?|d2];
    [exists []; split; [done|by intros ?%elem_of_nil]|].
  unfold processSwitch. destruct flDryRun.
  { exists []. rewrite foldl_doLog. split; [done|by intros ?%elem_of_nil]. }
  destruct (writeToZookeeper_calls zkChroot "partitionmeta" d1 w)
    as (c1 & Hc1 & Hp1).
  destruct (writeToZookeeper zkChroot "partitionmeta" d1 w) as [[e1|] w1];
    simpl in *.
  { exists (zk.CallDelete (zkPath zkChroot "partitionmeta") 0 :: c1).
    rewrite Hc1, <- app_assoc. split; [reflexivity|].
    intros [[=]|Hin]%elem_of_cons. revert Hin. eapply Hno; [|exact Hp1].
    intros c [->| ->]; by eexists. }
  destruct (writeToZookeeper_calls zkChroot "brokermetrics" d2 w1)
    as (c2 & Hc2 & Hp2).
  assert (calls (let '(err, w0) :=
                   let '(err, w0) := writeToZookeeper zkChroot "brokermetrics" d2 w1 in
                   match err with
                   | Some e => (Some e, w0)
                   | None => (None, w0)
                   end in (err, doClose w0)).2
          = calls w ++ (zk.CallDelete (zkPath zkChroot "partitionmeta") 0 :: c1
                        ++ zk.CallDelete (zkPath zkChroot "brokermetrics") 0 :: c2)
            ++ [zk.CallClose]) as ->.
  { destruct (writeToZookeeper zkChroot "brokermetrics" d2 w1) as [[e2|] w2];
      simpl in *; rewrite Hc2, Hc1, <- !app_assoc; simpl; reflexivity. }
  eexists. split; [reflexivity|].
  intros [[=]|Hin]%elem_of_cons.
  apply elem_of_app in Hin as [Hin|[[=]|Hin]%elem_of_cons].
  - revert Hin. eapply Hno; [|exact Hp1]. intros c [->| ->]; by eexists.
  - revert Hin. eapply Hno; [|exact Hp2]. intros c [->| ->]; by eexists.
Qed.

(** X10: [processData] returns a serialization error exactly when one of
    the two maps cannot be serialized, the partition map being tried first;
    then nothing is logged and the connection is only closed. This holds
    for a dry run as well, and a dry run fails in no other way. *)
Theorem X10_marshal_errors (flDryRun : bool) (zkChroot : string)
    (brokerMetrics : brokerStorageFree) (partitionMapping : topicPartitionSize)
    (w : world St) (msg : string) :
  let out := processData flDryRun zkChroot brokerMetrics partitionMapping w in
  (out.1 = Some (ErrMarshal msg)
   ↔ json_Marshal_tps partitionMapping = Err msg
     ∨ ((∃ d, json_Marshal_tps partitionMapping = Ok d)
        ∧ json_Marshal_bsf brokerMetrics = Err msg))
  ∧ (out.1 = Some (ErrMarshal msg) → out.2 = doClose w)
  ∧ (flDryRun = true → ∀ e, out.1 = Some e → ∃ msg', e = ErrMarshal msg').
Proof.
  intros out. subst out. unfold processData.
  destruct (json_Marshal_tps partitionMapping) as [m1|d1]; simpl.
  { repeat split; try done.
    - intros [= ->]. by left.
    - intros [[= ->]|[[d [=]] _]]. done.
    - intros _ e [= <-]. by eexists. }
  destruct (json_Marshal_bsf brokerMetrics) as [m2|d2]; simpl.
  { repeat split; try done.
    - intros [= ->]. right. split; [by eexists|done].
    - intros [[=]|[_ [= ->]]]. done.
    - intros _ e [= <-]. by eexists. }
  unfold processSwitch. destruct flDryRun; simpl.
  { repeat split; try done. intros [[=]|[_ [=]]]. }
  pose proof (writeToZookeeper_not_marshal zkChroot "partitionmeta" d1 w msg) as H1.
  destruct (writeToZookeeper zkChroot "partitionmeta" d1 w) as [[e1|] w1]; simpl in *.
  { repeat split; try done; try congruence. intros [[=]|[_ [=]]]. }
  pose proof (writeToZookeeper_not_marshal zkChroot "brokermetrics" d2 w1 msg) as H2.
  destruct (writeToZookeeper zkChroot "brokermetrics" d2 w1) as [[e2|] w2]; simpl in *.
  { repeat split; try done; try congruence. intros [[=]|[_ [=]]]. }
  repeat split; try done. intros [[=]|[_ [=]]].
Qed.

End PublisherMore.

Lemma X8_witness :
  logged (processData false "" brokers1 partitions1
            (mkWorld (∅ : memzk.store) [] [])).2
  = [ "writing data to /topicmappr/partitionmeta";
      "writing data to /topicmappr/brokermetrics" ].
Proof.
  destruct (X8_live_success_writes_both_payloads "" brokers1 partitions1
              (mkWorld (∅ : memzk.store) [] []))
    as (d1 & d2 & cs1 & cs2 & _ & _ & _ & _ & _ & Hlog).
  - vm_compute. reflexivity.
  - rewrite Hlog. reflexivity.
Defined.

(** * Further properties of the dry run *)





(** ** Partition keys and the numbers printed for them *)

Lemma pretty_N_char_digit (y : N) :
  (y < 10)%N →
  Z.of_nat (nat_of_ascii (pretty_N_char y)) - 48 = Z.of_N y
  ∧ pretty_N_char y ≠ "-"%char ∧ pretty_N_char y ≠ "+"%char.
Proof.
  intros Hy.
  assert (y = 0 ∨ y = 1 ∨ y = 2 ∨ y = 3 ∨ y = 4 ∨ y = 5 ∨ y = 6 ∨ y = 7
          ∨ y = 8 ∨ y = 9)%N as Hcases by lia.
  repeat (destruct Hcases as [-> | Hcases]); try subst y; by vm_compute.
Qed.

(** The digits [pretty_N_go] writes are read back by [parseDigits]. *)
Lemma parseDigits_pretty_N_go (x : N) (s : string) :
  Z.of_N x ≤ MaxUint64 →
  parseDigits 0 (pretty_N_go x s) = parseDigits (Z.of_N x) s.
Proof.
  revert s. induction (N.lt_wf_0 x) as [x _ IH]. intros s Hx.
  destruct (decide (x = 0)%N) as [->|Hpos]; [done|].
  rewrite pretty_N_go_step by lia.
  assert (x `div` 10 < x)%N as Hlt by (apply N.div_lt; lia).
  assert (x `mod` 10 < 10)%N as Hmod by (apply N.mod_lt; lia).
  pose proof (N.div_mod x 10 ltac:(lia)) as Hdm.
  revert IH Hlt Hmod Hdm.
  generalize (x `div` 10)%N (x `mod` 10)%N. intros q y IH Hlt Hmod Hdm.
  rewrite IH; [|done|lia]. simpl.
  destruct (pretty_N_char_digit _ Hmod) as (-> & _ & _).
  assert (Z.of_N q * 10 + Z.of_N y = Z.of_N x) as -> by lia.
  destruct (Z.ltb_spec (Z.of_N y) 0); [lia|].
  destruct (Z.ltb_spec 9 (Z.of_N y)); [lia|]. simpl.
  destruct (Z.ltb_spec MaxUint64 (Z.of_N x)); [lia|]. done.
Qed.

(** A positive number is written with a digit first. *)
Lemma pretty_N_go_head (x : N) (s : string) :
  (0 < x)%N →
  ∃ y r, (y < 10)%N ∧ pretty_N_go x s = String (pretty_N_char y) r.
Proof.
  revert s. induction (N.lt_wf_0 x) as [x _ IH]. intros s Hx.
  rewrite pretty_N_go_step by done.
  destruct (decide (x `div` 10 = 0)%N) as [->|Hpos].
  - rewrite pretty_N_go_0. exists (x `mod` 10)%N, s.
    split; [apply N.mod_lt; lia|done].
  - apply IH; [apply N.div_lt; lia|by apply N.neq_0_lt_0].
Qed.

(** [Atoi] on a string that starts with neither sign. *)
Lemma Atoi_unsigned (c : ascii) (r : string) (un : Z) :
  c ≠ "-"%char → c ≠ "+"%char →
  parseDigits 0 (String c r) = Ok un → un ≤ MaxInt64 →
  Atoi (String c r) = (un, None).
Proof.
  intros Hm Hp Hparse Hun. unfold Atoi.
  assert ((match String c r with
           | String "-" r' => (true, r')
           | String "+" r' => (false, r')
           | _ => (false, String c r)
           end) = (false, String c r)) as ->.
  { destruct c as [[] [] [] [] [] [] [] []]; try reflexivity; congruence. }
  rewrite Hparse. simpl.
  destruct (Z.ltb_spec MaxInt64 un); [lia|done].
Qed.

(** Reading back the decimal form of a number gives the number. *)
Lemma Atoi_pretty (n : Z) :
  MinInt64 ≤ n ≤ MaxInt64 → Atoi (pretty n) = (n, None).
Proof.
  intros Hn. destruct n as [|p|p].
  - by vm_compute.
  - change (pretty (Z.pos p)) with (pretty_N_go (N.pos p) "").
    destruct (pretty_N_go_head (N.pos p) "") as (y & r & Hy & Hhead); [lia|].
    destruct (pretty_N_char_digit y Hy) as (_ & Hm & Hp).
    rewrite Hhead. apply Atoi_unsigned; [done..| |unfold MaxInt64 in *; lia].
    rewrite <- Hhead, parseDigits_pretty_N_go; [done|].
    unfold MaxUint64, MaxInt64 in *. lia.
  - change (pretty (Z.neg p)) with (String "-" (pretty_N_go (N.pos p) "")).
    destruct (pretty_N_go_head (N.pos p) "") as (y & r & Hy & Hhead); [lia|].
    unfold Atoi.
    rewrite Hhead at 1. rewrite parseDigits_pretty_N_go;
      [|unfold MaxUint64, MinInt64 in *; lia].
    simpl.
    destruct (Z.ltb_spec (MaxInt64 + 1) (Z.pos p));
      [unfold MaxInt64, MinInt64 in *; lia|done].
Qed.

(** A key that is no number reads as 0. *)
Lemma Atoi_syntax_zero (s : string) :
  (Atoi s).2 = Some ErrSyntax → (Atoi s).1 = 0.
Proof.
  unfold Atoi.
  destruct (match s with
            | String "-" r => (true, r)
            | String "+" r => (false, r)
            | _ => (false, s)
            end) as [neg digits].
  destruct digits as [|c r]; [done|].
  destruct (parseDigits 0 (String c r)) as [[]|un]; simpl; try done.
  - by destruct neg.
  - destruct neg; simpl;
      repeat (match goal with |- context [if ?b then _ else _] => destruct b end);
      simpl; done.
Qed.

(** X12: the dry run has one entry per partition of a topic: the number
    [strconv.Atoi] reads from the key, with the size as an unsigned
    integer. A key that is the decimal form of a number in the range of
    [int] is listed under that number; a key that is no number is listed
    as partition 0. *)
Theorem X12_dry_run_entries_per_partition (E : Externals) (HE : ExternalsLaws E)
    (topic : string) (m : partitionSize) :
  dryRunEntries topic m
  ≡ₚ (λ kv, el.mk (Atoi kv.1).1 (uint64_of_float64 (Size kv.2))) <$> map_to_list m
  ∧ (∀ n x, MinInt64 ≤ n ≤ MaxInt64 → m !! pretty n = Some x →
       el.mk n (uint64_of_float64 (Size x)) ∈ dryRunEntries topic m)
  ∧ (∀ key x, m !! key = Some x → (Atoi key).2 = Some ErrSyntax →
       el.mk 0 (uint64_of_float64 (Size x)) ∈ dryRunEntries topic m).
Proof.
  assert (dryRunEntries topic m
          ≡ₚ (λ kv, el.mk (Atoi kv.1).1 (uint64_of_float64 (Size kv.2)))
             <$> map_to_list m) as Hperm.
  { unfold dryRunEntries. rewrite sort_Slice_perm, range_partitions_perm.
    apply reflexive_eq. apply list_fmap_ext. by intros i [k x] _. }
  split; [exact Hperm|]. split.
  - intros n x Hn Hx. rewrite Hperm. apply list_elem_of_fmap.
    exists (pretty n, x). simpl. rewrite Atoi_pretty by done.
    split; [done|]. by apply elem_of_map_to_list.
  - intros key x Hx Herr. rewrite Hperm. apply list_elem_of_fmap.
    exists (key, x). simpl. rewrite Atoi_syntax_zero by done.
    split; [done|]. by apply elem_of_map_to_list.
Qed.

Lemma X12_witness :
  el.mk 10 100 ∈ dryRunEntries (E := refExternals) "t1"
    {[ "10" := {| Size := 100%float |}; "x" := {| Size := 7%float |} ]}
  ∧ el.mk 0 7 ∈ dryRunEntries (E := refExternals) "t1"
    {[ "10" := {| Size := 100%float |}; "x" := {| Size := 7%float |} ]}.
Proof.
  destruct (X12_dry_run_entries_per_partition refExternals _ "t1"
    {[ "10" := {| Size := 100%float |}; "x" := {| Size := 7%float |} ]})
    as (_ & Hnum & Hbad).
  split.
  - apply (Hnum 10 {| Size := 100%float |}); [by vm_compute|reflexivity].
  - apply (Hbad "x" {| Size := 7%float |}); reflexivity.
Defined.

(** * Properties of the orchestration *)

Section OrchestrationFacts.
Context {P St : Type} {platform : Platform P St} {conn : zk.Conn St}
  {E : Externals}.

(** [promQuery] records the query and leaves the connection alone; only a
    successful query can log (its warnings). *)
Lemma promQuery_frame (q : string) (s : env P St) :
  queried (promQuery q s).2 = queried s ++ [q]
  ∧ calls (zkw (promQuery q s).2) = calls (zkw s)
  ∧ zkConn (zkw (promQuery q s).2) = zkConn (zkw s)
  ∧ (∀ err, (promQuery q s).1 = Err err → zkw (promQuery q s).2 = zkw s).
Proof.
  unfold promQuery. destruct (v1api_Query q (prom s)) as [[[err|v] ws] p]; simpl.
  - done.
  - destruct ws; simpl; done.
Qed.

Lemma processData_ends_with_close (flDryRun : bool) (zkChroot : string)
    (brokerMetrics : brokerStorageFree) (partitionMapping : topicPartitionSize)
    (w : world St) :
  ∃ w', (processData flDryRun zkChroot brokerMetrics partitionMapping w).2
        = doClose w'.
Proof.
  unfold processData.
  destruct (match json_Marshal_tps partitionMapping with
            | Err e => _ | Ok d => _ end) as [err w']. by exists w'.
Qed.

(** X13: [main] issues no query and makes no connection-bound call unless
    the Prometheus address is given, the client for it can be made, the
    ZooKeeper address is given and the connection to its host part (the
    address without the chroot) is made; in every other case the process
    exits with status 1. Once connected, the broker query is issued
    first. *)
Theorem X13_main_config_gate (fl : Flags) (p0 : P) :
  (finalEnv (main fl p0) = None
   ↔ flPrometheusURL fl = ""
     ∨ is_Some (api_NewClient (flPrometheusURL fl))
     ∨ flZkAddr fl = ""
     ∨ ∃ err, zk_Connect [(splitZkAddr (flZkAddr fl)).1] = Err err)
  ∧ (finalEnv (main fl p0) = None → exitCode (main fl p0) = 1)
  ∧ (∀ s, finalEnv (main fl p0) = Some s →
       ∃ rest, queried s = flBrokerStorageQuery fl :: rest).
Proof.
  unfold main.
  destruct (decide (flPrometheusURL fl = "")) as [Hurl|Hurl].
  { simpl. split; [|done]. split; [by left|done]. }
  destruct (api_NewClient (flPrometheusURL fl)) as [cerr|] eqn:Hclient.
  { simpl. split; [|done]. split; [right; left; by eexists|done]. }
  destruct (decide (flZkAddr fl = "")) as [Hzk|Hzk].
  { simpl. split; [|done]. split; [by right; right; left|done]. }
  destruct (splitZkAddr (flZkAddr fl)) as [zkAddr zkChroot]. simpl.
  destruct (zk_Connect [zkAddr]) as [zerr|st] eqn:Hconn.
  { simpl. split; [|done]. split; [right; right; right; by eexists|done]. }
  set (s0 := mkEnv p0 [] (mkWorld st [] [])).
  pose proof (promQuery_frame (flBrokerStorageQuery fl) s0) as (Hq1 & _).
  destruct (promQuery (flBrokerStorageQuery fl) s0) as [r1 s1]. simpl in Hq1.
  assert (∀ o : outcome P St,
    (∀ s, finalEnv o = Some s → ∃ rest, queried s = flBrokerStorageQuery fl :: rest) →
    is_Some (finalEnv o) →
    (finalEnv o = None
     ↔ flPrometheusURL fl = "" ∨ is_Some (@None string) ∨ flZkAddr fl = ""
       ∨ ∃ err, @Ok string St st = Err err)
    ∧ (finalEnv o = None → exitCode o = 1)
    ∧ (∀ s, finalEnv o = Some s →
         ∃ rest, queried s = flBrokerStorageQuery fl :: rest)) as Hfin.
  { intros o Ho [s Hs]. split; [|split; [by rewrite Hs|exact Ho]].
    rewrite Hs. split; [done|]. intros [?|[[? [=]]|[?|[? [=]]]]]; done. }
  destruct (getBrokerFreeSpace (flBrokerIDLabel fl) r1) as [bm|code].
  2: { apply Hfin; [|by eexists]. intros s [= <-]. by exists []. }
  pose proof (promQuery_frame (flPartitionSizeQuery fl) s1) as (Hq2 & _).
  destruct (promQuery (flPartitionSizeQuery fl) s1) as [r2 s2]. simpl in Hq2.
  rewrite Hq1 in Hq2.
  destruct (getPartitionSizes r2) as [pm|code].
  2: { apply Hfin; [|by eexists]. intros s [= <-]. by eexists. }
  destruct (processData (flDryRun fl) zkChroot bm pm (zkw s2)) as [[e|] w'].
  - apply Hfin; [|by eexists]. intros s [= <-]. by eexists.
  - apply Hfin; [|by eexists]. intros s [= <-]. by eexists.
Qed.

(** On a result, of whatever shape, the two mappers return. *)
Lemma getBrokerFreeSpace_returns (l : string) (r : model_Value) :
  ∃ m, getBrokerFreeSpace l (Ok r) = Return m.
Proof. destruct r; by eexists. Qed.

Lemma getPartitionSizes_returns (r : model_Value) :
  ∃ m, getPartitionSizes (Ok r) = Return m.
Proof. destruct r; by eexists. Qed.

(** X14: what a run does once it is connected. A failed broker query
    ends it with status 1 after that one query, the connection unused and
    not closed; a failed partition query ends it the same way after the
    two queries. When both queries succeed, [processData] runs on the two
    maps made from their results, under the chroot of the address: the
    connection is closed at the end, and the exit status is 0 exactly when
    [processData] returns nil. *)
Theorem X14_main_all_or_nothing (fl : Flags) (p0 : P) (s : env P St) :
  finalEnv (main fl p0) = Some s →
  ∃ st, zk_Connect [(splitZkAddr (flZkAddr fl)).1] = Ok st ∧
    let q1 := promQuery (flBrokerStorageQuery fl)
                (mkEnv p0 [] (mkWorld st [] [])) in
    let q2 := promQuery (flPartitionSizeQuery fl) q1.2 in
    match q1.1 with
    | Err _ =>
        main fl p0 = Exited 1 BrokerQuery (Some s)
        ∧ queried s = [flBrokerStorageQuery fl]
        ∧ zkw s = mkWorld st [] []
    | Ok r1 =>
        match q2.1 with
        | Err _ =>
            main fl p0 = Exited 1 PartitionQuery (Some s)
            ∧ queried s = [flBrokerStorageQuery fl; flPartitionSizeQuery fl]
            ∧ calls (zkw s) = []
            ∧ zkConn (zkw s) = st
        | Ok r2 =>
            ∃ bm pm,
              getBrokerFreeSpace (flBrokerIDLabel fl) (Ok r1) = Return bm
              ∧ getPartitionSizes (Ok r2) = Return pm
              ∧ queried s = [flBrokerStorageQuery fl; flPartitionSizeQuery fl]
              ∧ zkw s = (processData (flDryRun fl) (splitZkAddr (flZkAddr fl)).2
                           bm pm (zkw q2.2)).2
              ∧ (exitCode (main fl p0) = 0
                 ↔ (processData (flDryRun fl) (splitZkAddr (flZkAddr fl)).2
                      bm pm (zkw q2.2)).1 = None)
              ∧ (∀ e, (processData (flDryRun fl) (splitZkAddr (flZkAddr fl)).2
                         bm pm (zkw q2.2)).1 = Some e →
                      main fl p0 = Exited 1 (ProcessData e) (Some s))
              ∧ ∃ cs, calls (zkw s) = cs ++ [zk.CallClose]
        end
    end.
Proof.
  unfold main.
  destruct (decide (flPrometheusURL fl = "")); [done|].
  destruct (api_NewClient (flPrometheusURL fl)); [done|].
  destruct (decide (flZkAddr fl = "")); [done|].
  destruct (splitZkAddr (flZkAddr fl)) as [zkAddr zkChroot]. cbn [fst snd].
  destruct (zk_Connect [zkAddr]) as [zerr|st]; [done|].
  intros Hs. exists st. split; [done|]. revert Hs. cbv zeta.
  pose proof (promQuery_frame (flBrokerStorageQuery fl)
                (mkEnv p0 [] (mkWorld st [] []))) as (Hq1 & Hc1 & Hz1 & He1).
  destruct (promQuery (flBrokerStorageQuery fl) (mkEnv p0 [] (mkWorld st [] [])))
    as [[err1|r1] s1]; cbn [fst snd] in *.
  { change (getBrokerFreeSpace (flBrokerIDLabel fl) (Err err1))
      with (@Exit brokerStorageFree 1).
    intros [= <-]. split; [done|]. split; [done|]. by apply (He1 err1). }
  destruct (getBrokerFreeSpace_returns (flBrokerIDLabel fl) r1) as [bm Hbm].
  rewrite Hbm.
  pose proof (promQuery_frame (flPartitionSizeQuery fl) s1)
    as (Hq2 & Hc2 & Hz2 & He2).
  destruct (promQuery (flPartitionSizeQuery fl) s1) as [[err2|r2] s2];
    cbn [fst snd] in *; rewrite Hq1 in Hq2.
  { change (getPartitionSizes (Err err2)) with (@Exit topicPartitionSize 1).
    intros [= <-]. split; [done|]. split; [done|].
    split; [by rewrite Hc2, Hc1|by rewrite Hz2, Hz1]. }
  destruct (getPartitionSizes_returns r2) as [pm Hpm]. rewrite Hpm.
  intros Hs. exists bm, pm. split; [done|]. split; [done|]. revert Hs.
  destruct (processData_ends_with_close (flDryRun fl) zkChroot bm pm (zkw s2))
    as [w' Hw'].
  destruct (processData (flDryRun fl) zkChroot bm pm (zkw s2)) as [[e|] w];
    cbn [fst snd finalEnv] in *; intros [= <-]; cbn [queried zkw exitCode];
    subst w; (split; [done|]); (split; [done|]); (split; [done|]);
    (split; [by intros ? [= <-]|]); by eexists.
Qed.

End OrchestrationFacts.

Lemma X14_witness :
  ∃ s, finalEnv (main flags1 prometheus1) = Some s
       ∧ queried s = ["broker_storage"; "partition_size"].
Proof.
  assert (∃ s, finalEnv (main flags1 prometheus1) = Some s) as [s Hs]
    by (eexists; vm_compute; reflexivity).
  exists s. split; [exact Hs|].
  destruct (X14_main_all_or_nothing flags1 prometheus1 s Hs) as (st & _ & H).
  cbv zeta in H.
  assert ((promQuery (flBrokerStorageQuery flags1)
            (mkEnv prometheus1 [] (mkWorld st [] []))).1
          = Ok (ValVector [ mkSample {[ "broker_id" := "1001" ]} 512%float 0 ]))
    as Hq1 by (vm_compute; reflexivity).
  rewrite Hq1 in H.
  assert ((promQuery (flPartitionSizeQuery flags1)
            (promQuery (flBrokerStorageQuery flags1)
               (mkEnv prometheus1 [] (mkWorld st [] []))).2).1
          = Ok (ValVector
                  [ mkSample {[ "topic" := "t1"; "partition" := "0" ]} 100%float 0 ]))
    as Hq2 by (vm_compute; reflexivity).
  rewrite Hq2 in H.
  destruct H as (bm & pm & _ & _ & Hq & _). exact Hq.
Defined.
